(** * rewrite_dates.py: a shallow embedding and its properties

    The script resolves a fixed list of abbreviated commit names with
    [git rev-parse], writes an environment filter [date_filter.sh] that
    pins the author and committer dates of the resolved commits, marks
    the filter executable and runs [git filter-branch] over all refs.

    The embedding keeps the script's shape: the module-level statements
    become one computation [main] in a small writer/exception monad whose
    output is the sequence of observable actions (prints, spawned
    processes, file operations).  What the outside world answers (exit
    status and standard output of every spawned process, the absolute
    path of a file name, the umask) is an [env] the computation reads.
    Launching [git] and the file operations themselves are taken to
    succeed, so the only exception in the model is the one the script
    mentions, [subprocess.CalledProcessError].

    Three limits of the model.  Strings are sequences of 8-bit
    characters and white space is the ASCII one, as in what [git] prints;
    Python's [strip] removes further Unicode white space, which only
    shortens an identifier more.  The file system holds the files of the
    working directory by name and changes only by the script's own file
    operations: what [git] does under [.git] is outside it, and
    [date_filter.sh] is taken to be a regular file.  What is recorded of
    standard output is the script's own [print] calls; a child process
    that inherits standard output writes there too, between the
    script's lines. *)

From Stdlib Require Import String Ascii List ZArith Bool Arith Lia.
Import ListNotations.

Local Open Scope string_scope.
Local Open Scope list_scope.

(** * The model *)

(** ** Characters the source writes with escapes *)

(** The double quote character, as a one-character string. *)
Definition dq : string := String (ascii_of_nat 34) EmptyString.
(** The line feed written [\n] in the source. *)
Definition nl : string := String (ascii_of_nat 10) EmptyString.

(** ** The pieces of the Python runtime the script relies on *)

Module Py.

(** [str.isspace] on the ASCII range: TAB, LF, VT, FF, CR, the four
    separators FS GS RS US, and the space.  Beyond that range Python
    knows more white space (U+0085, U+00A0, U+2003, ...), which this
    model does not. *)
Definition isspace (c : ascii) : bool :=
  let n := nat_of_ascii c in
  (((9 <=? n) && (n <=? 13)) || ((28 <=? n) && (n <=? 32)))%nat.

Fixpoint lstrip (s : string) : string :=
  match s with
  | EmptyString => EmptyString
  | String c r => if isspace c then lstrip r else s
  end.

Fixpoint rstrip (s : string) : string :=
  match s with
  | EmptyString => EmptyString
  | String c r =>
      match rstrip r with
      | EmptyString => if isspace c then EmptyString else String c EmptyString
      | r' => String c r'
      end
  end.

(** [str.strip()] with no argument. *)
Definition strip (s : string) : string := rstrip (lstrip s).

(** A [dict] from [str] to [str].  Python dictionaries iterate in
    insertion order and assigning to a key that is present keeps the
    key's position, so the model is an association list that
    [setitem] updates in place or extends at the end. *)
Definition dict := list (string * string).

Definition empty : dict := [].

Fixpoint setitem (d : dict) (k v : string) : dict :=
  match d with
  | [] => [(k, v)]
  | (k', v') :: r =>
      if String.eqb k' k then (k', v) :: r else (k', v') :: setitem r k v
  end.

Fixpoint getitem (d : dict) (k : string) : option string :=
  match d with
  | [] => None
  | (k', v') :: r => if String.eqb k' k then Some v' else getitem r k
  end.

Definition items (d : dict) : list (string * string) := d.

Definition keys (d : dict) : list string := map fst d.

End Py.

(** ** The outside world *)

(** What a finished child process leaves behind. *)
Record completed := mkCompleted {
  returncode : Z;
  stdout : string
}.

Record env := mkEnv {
  (** exit status and captured output of a process, by its argument vector *)
  run_process : list string -> completed;
  (** [os.path.abspath], a library function outside the repository *)
  abspath : string -> string;
  (** the process umask, which decides the mode of a file [open] creates *)
  umask : Z
}.

(** Observable actions, in the order the script performs them. *)
Inductive event : Type :=
| Print (line : string)
| Spawn (argv : list string)
| Open (path : string)
| Write (path data : string)
| Close (path : string)
| Chmod (path : string) (mode : Z).

Inductive exn : Type :=
| CalledProcessError (code : Z) (cmd : list string).

(** ** The script monad: read the environment, log actions, maybe raise *)

Definition script (A : Type) : Type := env -> list event * (A + exn).

Definition ret {A} (a : A) : script A := fun _ => ([], inl a).

Definition bind {A B} (m : script A) (k : A -> script B) : script B :=
  fun E =>
    match m E with
    | (t1, inl a) => let (t2, r) := k a E in (t1 ++ t2, r)
    | (t1, inr e) => (t1, inr e)
    end.

Definition emit (e : event) : script unit := fun _ => ([e], inl tt).

Definition raise {A} (e : exn) : script A := fun _ => ([], inr e).

(** [try: body / except subprocess.CalledProcessError: handler]. *)
Definition try_except {A} (body : script A) (handler : script A) : script A :=
  fun E =>
    match body E with
    | (t1, inl a) => (t1, inl a)
    | (t1, inr (CalledProcessError _ _)) =>
        let (t2, r) := handler E in (t1 ++ t2, r)
    end.

Declare Scope script_scope.
Delimit Scope script_scope with script.
Notation "x <- m ;; k" := (bind m (fun x => k))
  (at level 100, m at next level, right associativity) : script_scope.
Notation "m ;; k" := (bind m (fun _ => k))
  (at level 100, right associativity) : script_scope.
Local Open Scope script_scope.

Definition trace {A} (r : list event * (A + exn)) : list event := fst r.
Definition outcome {A} (r : list event * (A + exn)) : A + exn := snd r.

(** ** Library calls *)

Definition print (s : string) : script unit := emit (Print s).

(** [subprocess.check_output(argv, text=True)]: the captured output when
    the child exits with status zero, [CalledProcessError] otherwise. *)
Definition check_output (argv : list string) : script string :=
  fun E =>
    let r := run_process E argv in
    ([Spawn argv],
     if (returncode r =? 0)%Z then inl (stdout r)
     else inr (CalledProcessError (returncode r) argv)).

(** [subprocess.run(argv, check=True)]. *)
Definition run_check (argv : list string) : script unit :=
  fun E =>
    let r := run_process E argv in
    ([Spawn argv],
     if (returncode r =? 0)%Z then inl tt
     else inr (CalledProcessError (returncode r) argv)).

(** [with open(path, "w") as f: body]: the file is closed when the body
    is left, normally or by an exception. *)
Definition with_open {A} (path : string) (body : string -> script A) : script A :=
  fun E =>
    let (t, r) := body path E in
    (Open path :: t ++ [Close path], r).

Definition write (f data : string) : script unit := emit (Write f data).

Definition chmod (path : string) (mode : Z) : script unit := emit (Chmod path mode).

Definition os_path_abspath (path : string) : script string :=
  fun E => ([], inl (abspath E path)).

(** ** The script *)

Definition commits : list (string * string) :=
  [ ("afadbad", "2025-11-19T10:00:00");
    ("32cac5d", "2025-11-19T14:00:00");
    ("5555779", "2025-11-20T09:00:00");
    ("09dcc55", "2025-11-20T11:00:00");
    ("7b552ce", "2025-11-21T10:00:00");
    ("cc7e692", "2025-11-21T16:00:00");
    ("b8580ab", "2025-11-24T09:00:00");
    ("d14d9d6", "2025-11-24T10:00:00");
    ("540a291", "2025-11-25T11:00:00");
    ("4d7c5ac", "2025-11-25T14:00:00");
    ("74bc4e7", "2025-11-26T10:00:00") ].

Definition rev_parse (short : string) : list string :=
  ["git"; "rev-parse"; short].

(** The body of the resolution loop for one entry. *)
Definition resolve_one (mapping : Py.dict) (short date : string) : script Py.dict :=
  try_except
    (out <- check_output (rev_parse short) ;;
     let full := Py.strip out in
     let mapping' := Py.setitem mapping full date in
     print (short ++ " -> " ++ full ++ " -> " ++ date) ;;
     ret mapping')
    (print ("Could not resolve " ++ short) ;;
     ret mapping).

(** [for short, date in cs: ...], threading the dictionary. *)
Fixpoint resolve_loop (cs : list (string * string)) (mapping : Py.dict)
  : script Py.dict :=
  match cs with
  | [] => ret mapping
  | (short, date) :: rest =>
      mapping' <- resolve_one mapping short date ;;
      resolve_loop rest mapping'
  end.

Definition shebang : string := "#!/bin/sh" ++ nl.

Definition guard_line (full : string) : string :=
  "if [ " ++ dq ++ "$GIT_COMMIT" ++ dq ++ " = " ++ dq ++ full ++ dq ++ " ]; then" ++ nl.

Definition author_line (date : string) : string :=
  "    export GIT_AUTHOR_DATE=" ++ dq ++ date ++ dq ++ nl.

Definition committer_line (date : string) : string :=
  "    export GIT_COMMITTER_DATE=" ++ dq ++ date ++ dq ++ nl.

Definition fi_line : string := "fi" ++ nl.

(** [for full, date in mapping.items(): f.write(...) ...]. *)
Fixpoint emit_blocks (f : string) (its : list (string * string)) : script unit :=
  match its with
  | [] => ret tt
  | (full, date) :: rest =>
      write f (guard_line full) ;;
      write f (author_line date) ;;
      write f (committer_line date) ;;
      write f fi_line ;;
      emit_blocks f rest
  end.

Definition filter_name : string := "date_filter.sh".

Definition write_filter (mapping : Py.dict) : script unit :=
  with_open filter_name (fun f =>
    write f shebang ;;
    emit_blocks f (Py.items mapping)).

(** The argument vector of the rewrite, given the filter's absolute path. *)
Definition filter_branch (script_path : string) : list string :=
  ["git"; "filter-branch"; "--env-filter"; script_path; "--force"; "--"; "--all"].

(** The statements of the module, generic in the commit list. *)
Definition program (cs : list (string * string)) : script unit :=
  print "Resolving hashes..." ;;
  mapping <- resolve_loop cs Py.empty ;;
  write_filter mapping ;;
  chmod filter_name 493%Z ;;
  print "Running git filter-branch..." ;;
  path <- os_path_abspath filter_name ;;
  let cmd := filter_branch path in
  run_check cmd ;;
  print "Done!".

Definition main : script unit := program commits.

(** The status the interpreter exits with: zero after the last statement,
    one when an exception reaches the top level. *)
Definition exit_status {A} (r : A + exn) : Z :=
  match r with
  | inl _ => 0%Z
  | inr _ => 1%Z
  end.

(** * Reading a run *)

(** ** Output, processes and writes *)

(** The arguments of the script's calls of [print], in order. *)
Definition printed (t : list event) : list string :=
  flat_map (fun e => match e with Print s => [s] | _ => [] end) t.

(** The argument vectors of the processes started. *)
Definition spawned (t : list event) : list (list string) :=
  flat_map (fun e => match e with Spawn a => [a] | _ => [] end) t.

(** The strings handed to [write] on the file [p]. *)
Definition written (p : string) (t : list event) : list string :=
  flat_map (fun e => match e with
                     | Write q d => if String.eqb q p then [d] else []
                     | _ => []
                     end) t.

(** ** The file system the actions act on *)

(** A file has contents and permission bits.  A file open for writing
    has pending data that reaches the file when it is closed (Python
    writes through a buffer, so what is on disk is only known to be
    complete once the file is closed).  Files are told apart by name,
    and only the script's own operations act on them: a spawned process
    counts as leaving the files of the working directory alone. *)
Record inode := mkInode {
  data : string;
  perm : Z
}.

Record fsys := mkFs {
  disk : string -> option inode;
  pending : string -> option string
}.

Definition upd {V} (m : string -> option V) (k : string) (v : option V)
  : string -> option V :=
  fun k' => if String.eqb k' k then v else m k'.

(** Mode of a file that [open] creates: [0o666 & ~umask]. *)
Definition create_mode (E : env) : Z := Z.land 438 (Z.lnot (umask E)).

(** Mode of the file the script opens: kept when the file exists. *)
Definition opened_mode (E : env) (init : fsys) (p : string) : Z :=
  match disk init p with
  | Some i => perm i
  | None => create_mode E
  end.

Definition fs_step (E : env) (fs : fsys) (e : event) : fsys :=
  match e with
  | Print _ | Spawn _ => fs
  | Open p =>
      let m := match disk fs p with
               | Some i => perm i
               | None => create_mode E
               end in
      mkFs (upd (disk fs) p (Some (mkInode EmptyString m)))
           (upd (pending fs) p (Some EmptyString))
  | Write p d =>
      match pending fs p with
      | Some buf => mkFs (disk fs) (upd (pending fs) p (Some (buf ++ d)%string))
      | None => fs
      end
  | Close p =>
      match pending fs p, disk fs p with
      | Some buf, Some i =>
          mkFs (upd (disk fs) p (Some (mkInode (data i ++ buf)%string (perm i))))
               (upd (pending fs) p None)
      | _, _ => mkFs (disk fs) (upd (pending fs) p None)
      end
  | Chmod p m =>
      match disk fs p with
      | Some i => mkFs (upd (disk fs) p (Some (mkInode (data i) m))) (pending fs)
      | None => fs
      end
  end.

Definition fs_after (E : env) (init : fsys) (t : list event) : fsys :=
  fold_left (fs_step E) t init.

Definition contents (fs : fsys) (p : string) : option string :=
  option_map data (disk fs p).

Definition mode (fs : fsys) (p : string) : option Z :=
  option_map perm (disk fs p).

Definition closed (fs : fsys) (p : string) : bool :=
  match pending fs p with
  | None => true
  | Some _ => false
  end.

(** A file system with no files at all. *)
Definition no_files : fsys := mkFs (fun _ => None) (fun _ => None).

(** ** What a run resolves and writes *)

(** The identifier [git rev-parse short] yields after [strip], when the
    process exits with status zero. *)
Definition resolves (E : env) (short : string) : option string :=
  let r := run_process E (rev_parse short) in
  if (returncode r =? 0)%Z then Some (Py.strip (stdout r)) else None.

(** The dictionary the resolution loop leaves behind. *)
Definition mapping_of (cs : list (string * string)) (E : env) : Py.dict :=
  match outcome (resolve_loop cs Py.empty E) with
  | inl m => m
  | inr _ => Py.empty
  end.

(** The identifiers the entries of [cs] resolve to, in list order. *)
Definition resolved_ids (E : env) (cs : list (string * string)) : list string :=
  flat_map (fun c => match resolves E (fst c) with
                     | Some f => [f]
                     | None => []
                     end) cs.

(** The four strings written for one item of the dictionary. *)
Definition block (full date : string) : list string :=
  [guard_line full; author_line date; committer_line date; fi_line].

Definition blocks (its : list (string * string)) : list string :=
  flat_map (fun it => block (fst it) (snd it)) its.

(** The command line of the rewrite in environment [E]. *)
Definition rewrite_cmd (E : env) : list string :=
  filter_branch (abspath E filter_name).

(** The filter as it is on disk once [program cs] has run from [init]. *)
Definition filter_text (cs : list (string * string)) (E : env) (init : fsys)
  : option string :=
  contents (fs_after E init (trace (program cs E))) filter_name.

(** The text of the filter for a dictionary. *)
Definition filter_body (m : Py.dict) : string :=
  String.concat EmptyString (shebang :: blocks m).

(** * The vocabulary of the properties *)

(** The strings [ws] written to the filter hold exactly one block guarded
    by [full]: its guard line is written once, and it is followed by the
    two exports of [date] and the closing [fi]. *)
Definition one_block (ws : list string) (full date : string) : Prop :=
  count_occ string_dec ws (guard_line full) = 1 /\
  exists pre post, ws = pre ++ block full date ++ post.

(** An identifier some entry resolves to has a last entry resolving to it. *)
Definition last_resolving (E : env) (cs : list (string * string))
    (full date : string) : Prop :=
  exists l1 short l2,
    cs = l1 ++ (short, date) :: l2 /\
    resolves E short = Some full /\
    (forall c, In c l2 -> resolves E (fst c) <> Some full).

(** [uniq l] keeps the first occurrence of every element of [l], in order. *)
Fixpoint uniq (l : list string) : list string :=
  match l with
  | [] => []
  | x :: r => x :: filter (fun y => negb (String.eqb y x)) (uniq r)
  end.

Definition is_filter_branch (argv : list string) : bool :=
  match argv with
  | a :: b :: _ => String.eqb a "git" && String.eqb b "filter-branch"
  | _ => false
  end.

(** The steps that use the filter file: the [chmod] on it and the rewrite. *)
Definition uses_filter (e : event) : bool :=
  match e with
  | Chmod p _ => String.eqb p filter_name
  | Spawn argv => is_filter_branch argv
  | _ => false
  end.

(** Permission bits: execute for owner ([0o100]), group ([0o010]) and
    others ([0o001]). *)
Definition executable_by_all (m : Z) : bool :=
  Z.testbit m 6 && Z.testbit m 3 && Z.testbit m 0.

(** ** Timestamps *)

Definition is_digit (c : ascii) : bool :=
  let n := nat_of_ascii c in ((48 <=? n) && (n <=? 57))%nat.

(** One position of a fixed-width format. *)
Inductive cls : Type :=
| Dig
| Sign
| Lit (c : ascii).

Definition in_cls (k : cls) (c : ascii) : bool :=
  match k with
  | Dig => is_digit c
  | Sign => Ascii.eqb c "+" || Ascii.eqb c "-"
  | Lit x => Ascii.eqb c x
  end.

(** What is left of [s] after a prefix of the given format. *)
Fixpoint after_format (fmt : list cls) (s : string) : option string :=
  match fmt, s with
  | [], _ => Some s
  | k :: fmt', String c r => if in_cls k c then after_format fmt' r else None
  | _ :: _, EmptyString => None
  end.

Definition has_format (fmt : list cls) (s : string) : bool :=
  match after_format fmt s with
  | Some EmptyString => true
  | _ => false
  end.

(** [YYYY-MM-DDTHH:MM:SS] *)
Definition date_time_format : list cls :=
  [Dig; Dig; Dig; Dig; Lit "-"; Dig; Dig; Lit "-"; Dig; Dig; Lit "T";
   Dig; Dig; Lit ":"; Dig; Dig; Lit ":"; Dig; Dig].

(** A fraction of a second, if any, is skipped. *)
Fixpoint skip_digits (s : string) : string :=
  match s with
  | String c r => if is_digit c then skip_digits r else s
  | EmptyString => EmptyString
  end.

Definition skip_fraction (s : string) : string :=
  match s with
  | String c (String d r) =>
      if (Ascii.eqb c "." || Ascii.eqb c ",") && is_digit d then skip_digits r else s
  | _ => s
  end.

(** A time zone designator: [Z], [+hh:mm], [+hhmm] or [+hh] (or with [-]). *)
Definition is_zone (s : string) : bool :=
  String.eqb s "Z"
  || has_format [Sign; Dig; Dig; Lit ":"; Dig; Dig] s
  || has_format [Sign; Dig; Dig; Dig; Dig] s
  || has_format [Sign; Dig; Dig] s.

(** An ISO-8601 date and time carrying a time zone offset. *)
Definition iso8601_with_offset (s : string) : bool :=
  match after_format date_time_format s with
  | Some rest => is_zone (skip_fraction rest)
  | None => false
  end.

(** An ISO-8601 date and time to the second and nothing more. *)
Definition iso8601_local (s : string) : bool := has_format date_time_format s.

(** ** Whitespace, lines and paths *)

(** Every character of the string is white space. *)
Fixpoint all_space (s : string) : bool :=
  match s with
  | EmptyString => true
  | String c r => Py.isspace c && all_space r
  end.

(** Every character of the string is in the ASCII range (below 128), the
    range on which [Py.isspace] is Python's [str.isspace]. *)
Fixpoint ascii_only (s : string) : bool :=
  match s with
  | EmptyString => true
  | String c r => (nat_of_ascii c <? 128)%nat && ascii_only r
  end.

Definition starts_with_space (s : string) : bool :=
  match s with
  | EmptyString => false
  | String c _ => Py.isspace c
  end.

Fixpoint ends_with_space (s : string) : bool :=
  match s with
  | EmptyString => false
  | String c EmptyString => Py.isspace c
  | String _ r => ends_with_space r
  end.

Definition is_lf (c : ascii) : bool := Ascii.eqb c (ascii_of_nat 10).

(** No line feed in the string. *)
Fixpoint newline_free (s : string) : bool :=
  match s with
  | EmptyString => true
  | String c r => negb (is_lf c) && newline_free r
  end.

(** The lines of a text, each with the line feed that ends it (the last
    one may lack it). *)
Fixpoint lines (s : string) : list string :=
  match s with
  | EmptyString => []
  | String c r =>
      if is_lf c then String c EmptyString :: lines r
      else match lines r with
           | [] => [String c EmptyString]
           | l :: ls => String c l :: ls
           end
  end.

(** A string that is one line: no line feed but the one that ends it. *)
Definition one_line (w : string) : Prop :=
  exists l, w = (l ++ nl)%string /\ newline_free l = true.

(** The items the entries of [cs] would add one after the other: the
    identifier and the timestamp of every entry that resolves. *)
Definition resolved_items (E : env) (cs : list (string * string))
  : list (string * string) :=
  flat_map (fun c => match resolves E (fst c) with
                     | Some f => [(f, snd c)]
                     | None => []
                     end) cs.

(** The file an action works on, if any. *)
Definition path_of (e : event) : option string :=
  match e with
  | Print _ | Spawn _ => None
  | Open p | Write p _ | Close p | Chmod p _ => Some p
  end.

(** The file operations among the actions of a run, in order. *)
Definition file_actions (t : list event) : list event :=
  filter (fun e => match path_of e with Some _ => true | None => false end) t.

(** The calls of [print] and the processes started, in order. *)
Definition console_actions (t : list event) : list event :=
  filter (fun e => match path_of e with Some _ => false | None => true end) t.

(** ** Sample environments *)

(** Two full identifiers. *)
Definition sample_id : string := "afadbad0c1e2d3f4a5b6c7d8e9f0011223344556".
Definition other_id : string := "5555779a0b1c2d3e4f5061728394a5b6c7d8e9f0".

(** A repository in which [afadbad] and [32cac5d] name the same commit
    (one of them as a tag, say), [5555779] names another one, and nothing
    else resolves; the rewrite succeeds. *)
Definition env_shared : env :=
  mkEnv
    (fun argv =>
       match argv with
       | [_; sub; short] =>
           if String.eqb sub "rev-parse" then
             if String.eqb short "afadbad" || String.eqb short "32cac5d"
             then mkCompleted 0 (sample_id ++ nl)
             else if String.eqb short "5555779"
                  then mkCompleted 0 (other_id ++ nl)
                  else mkCompleted 128 EmptyString
           else mkCompleted 1 EmptyString
       | _ => mkCompleted 0 EmptyString
       end)
    (fun p => ("/repo/" ++ p)%string)
    18.

(** A repository that knows none of the commits, and in which the
    rewrite fails. *)
Definition env_unknown : env :=
  mkEnv
    (fun argv =>
       match argv with
       | [_; _; _] => mkCompleted 128 EmptyString
       | _ => mkCompleted 1 EmptyString
       end)
    (fun p => ("/repo/" ++ p)%string)
    18.

(** The repository of [env_shared] checked out elsewhere: another working
    directory and umask, [git] ending its lines with CR LF, and a rewrite
    that fails. *)
Definition env_shared_elsewhere : env :=
  mkEnv
    (fun argv =>
       match argv with
       | [_; sub; short] =>
           if String.eqb sub "rev-parse" then
             if String.eqb short "afadbad" || String.eqb short "32cac5d"
             then mkCompleted 0 (sample_id ++ String (ascii_of_nat 13) nl)
             else if String.eqb short "5555779"
                  then mkCompleted 0 (other_id ++ String (ascii_of_nat 13) nl)
                  else mkCompleted 1 EmptyString
           else mkCompleted 1 EmptyString
       | _ => mkCompleted 2 EmptyString
       end)
    (fun p => ("/srv/checkout/" ++ p)%string)
    63.

(** A repository in which every short name resolves, each to an
    identifier of its own (the name followed by zeros), and the rewrite
    succeeds. *)
Definition env_all_resolve : env :=
  mkEnv
    (fun argv =>
       match argv with
       | [_; sub; short] =>
           if String.eqb sub "rev-parse"
           then mkCompleted 0 (short ++ "000000000000000000000000000000000" ++ nl)
           else mkCompleted 1 EmptyString
       | _ => mkCompleted 0 EmptyString
       end)
    (fun p => ("/repo/" ++ p)%string)
    18.

(** A working directory that already holds a filter from an earlier run,
    not executable, and a file of notes. *)
Definition sample_fs : fsys :=
  mkFs (fun p => if String.eqb p "date_filter.sh"
                 then Some (mkInode "#!/bin/sh" 420)
                 else if String.eqb p "notes.txt"
                      then Some (mkInode "keep me" 420)
                      else None)
       (fun _ => None).

(** ** The run of each part, in closed form *)

Definition step_mapping (E : env) (m : Py.dict) (c : string * string) : Py.dict :=
  match resolves E (fst c) with
  | Some full => Py.setitem m full (snd c)
  | None => m
  end.

Definition mapping_after (E : env) (cs : list (string * string)) (m : Py.dict)
  : Py.dict :=
  fold_left (step_mapping E) cs m.

Definition resolve_msg (E : env) (c : string * string) : string :=
  match resolves E (fst c) with
  | Some full => (fst c ++ " -> " ++ full ++ " -> " ++ snd c)%string
  | None => ("Could not resolve " ++ fst c)%string
  end.

Definition resolve_events (E : env) (c : string * string) : list event :=
  [Spawn (rev_parse (fst c)); Print (resolve_msg E c)].

(** What follows the resolution loop, given the dictionary it built. *)
Definition tail_events (E : env) (m : Py.dict) : list event :=
  Open filter_name :: map (Write filter_name) (shebang :: blocks m)
    ++ [Close filter_name; Chmod filter_name 493%Z;
        Print "Running git filter-branch..."; Spawn (rewrite_cmd E)]
    ++ (if (returncode (run_process E (rewrite_cmd E)) =? 0)%Z
        then [Print "Done!"] else []).

(** Everything up to and including the closing of the filter. *)
Definition head_events (E : env) (cs : list (string * string)) : list event :=
  Print "Resolving hashes..." :: flat_map (resolve_events E) cs
    ++ Open filter_name
    :: map (Write filter_name) (shebang :: blocks (mapping_of cs E))
    ++ [Close filter_name].

Definition done_events (E : env) : list event :=
  if (returncode (run_process E (rewrite_cmd E)) =? 0)%Z then [Print "Done!"] else [].

(** Events that leave every file alone. *)
Definition inert (e : event) : bool :=
  match e with
  | Print _ | Spawn _ => true
  | _ => false
  end.

Definition resolves_to (E : env) (full : string) (c : string * string) : bool :=
  match resolves E (fst c) with
  | Some f => String.eqb f full
  | None => false
  end.

(** * Properties *)

(** ** Examples *)

Example strip_examples :
  Py.strip ("afadbad0" ++ nl) = "afadbad0" /\
  Py.strip ("  a b" ++ String (ascii_of_nat 13) nl) = "a b" /\
  Py.strip nl = EmptyString.
Proof. repeat split. Qed.

Example uniq_example : uniq ["a"; "b"; "a"; "c"; "b"] = ["a"; "b"; "c"].
Proof. reflexivity. Qed.

Example offset_examples :
  iso8601_with_offset "2025-11-19T10:00:00+01:00" = true /\
  iso8601_with_offset "2025-11-19T10:00:00.250Z" = true /\
  iso8601_with_offset "2025-11-19T10:00:00-0800" = true /\
  iso8601_with_offset "2025-11-19T10:00:00" = false /\
  iso8601_local "2025-11-19T10:00:00" = true /\
  iso8601_local "2025-11-19 10:00:00" = false.
Proof. repeat split. Qed.

Example mode_755_octal : (493 = 7 * 64 + 5 * 8 + 5)%Z.
Proof. reflexivity. Qed.

(** ** The run of each part *)

Lemma resolve_one_run E m short date :
  resolve_one m short date E =
  (resolve_events E (short, date), inl (step_mapping E m (short, date))).
Proof.
  unfold resolve_one, try_except, bind, check_output, print, emit, ret,
    resolve_events, resolve_msg, step_mapping, resolves; simpl.
  destruct (returncode (run_process E (rev_parse short)) =? 0)%Z; reflexivity.
Qed.

Lemma resolve_loop_run E cs : forall m,
  resolve_loop cs m E =
  (flat_map (resolve_events E) cs, inl (mapping_after E cs m)).
Proof.
  induction cs as [|[short date] rest IH]; intros m.
  - reflexivity.
  - cbn [resolve_loop]. unfold bind. rewrite resolve_one_run, IH. reflexivity.
Qed.

Lemma mapping_of_after cs E : mapping_of cs E = mapping_after E cs Py.empty.
Proof. unfold mapping_of. rewrite resolve_loop_run. reflexivity. Qed.

Lemma emit_blocks_run E f its :
  emit_blocks f its E = (map (Write f) (blocks its), inl tt).
Proof.
  induction its as [|[full date] rest IH].
  - reflexivity.
  - cbn [emit_blocks]. unfold bind, write, emit in *. rewrite IH. reflexivity.
Qed.

Lemma write_filter_run E m :
  write_filter m E =
  (Open filter_name :: map (Write filter_name) (shebang :: blocks m)
     ++ [Close filter_name], inl tt).
Proof.
  unfold write_filter, with_open, bind, write, emit.
  rewrite emit_blocks_run. reflexivity.
Qed.

Lemma program_run cs E :
  program cs E =
  (Print "Resolving hashes..." :: flat_map (resolve_events E) cs
     ++ tail_events E (mapping_of cs E),
   let code := returncode (run_process E (rewrite_cmd E)) in
   if (code =? 0)%Z then inl tt
   else inr (CalledProcessError code (rewrite_cmd E))).
Proof.
  unfold program, bind, print, emit, chmod, os_path_abspath, run_check, tail_events.
  rewrite mapping_of_after, resolve_loop_run, write_filter_run.
  fold (rewrite_cmd E).
  destruct (returncode (run_process E (rewrite_cmd E)) =? 0)%Z;
    unfold emit; cbn [app]; rewrite <- ?app_assoc; reflexivity.
Qed.

(** ** Strings *)

Lemma length_append (a b : string) :
  String.length (a ++ b) = String.length a + String.length b.
Proof. induction a as [|c a IH]; simpl; [reflexivity | now rewrite IH]. Qed.

Lemma append_nil_r (a : string) : (a ++ EmptyString)%string = a.
Proof. induction a as [|c a IH]; simpl; [reflexivity | now rewrite IH]. Qed.

Lemma append_assoc (a b c : string) :
  ((a ++ b) ++ c)%string = (a ++ (b ++ c))%string.
Proof. induction a as [|x a IH]; simpl; [reflexivity | now rewrite IH]. Qed.

Lemma append_cancel_r (t a b : string) :
  (a ++ t)%string = (b ++ t)%string -> a = b.
Proof.
  revert b; induction a as [|x a IH]; intros [|y b] H; simpl in H.
  - reflexivity.
  - apply (f_equal String.length) in H. simpl in H. rewrite length_append in H. lia.
  - apply (f_equal String.length) in H. simpl in H. rewrite length_append in H. lia.
  - injection H as -> H. f_equal. now apply IH.
Qed.

Lemma concat_app (l1 l2 : list string) :
  String.concat EmptyString (l1 ++ l2) =
  (String.concat EmptyString l1 ++ String.concat EmptyString l2)%string.
Proof.
  induction l1 as [|a [|b l1] IH].
  - reflexivity.
  - destruct l2 as [|c l2]; simpl.
    + now rewrite append_nil_r.
    + reflexivity.
  - change ((a :: b :: l1) ++ l2) with (a :: (b :: l1) ++ l2).
    change (String.concat EmptyString (a :: (b :: l1) ++ l2))
      with (a ++ EmptyString ++ String.concat EmptyString ((b :: l1) ++ l2))%string.
    rewrite IH. simpl. now rewrite append_assoc.
Qed.

(** ** The lines of the filter are told apart by how they begin *)

Lemma guard_line_inj f f' : guard_line f = guard_line f' -> f = f'.
Proof.
  unfold guard_line; simpl. intros H. injection H as H.
  now apply append_cancel_r in H.
Qed.

Lemma guard_not_author f d : guard_line f <> author_line d.
Proof. discriminate. Qed.

Lemma guard_not_committer f d : guard_line f <> committer_line d.
Proof. discriminate. Qed.

Lemma guard_not_fi f : guard_line f <> fi_line.
Proof. discriminate. Qed.

Lemma guard_not_shebang f : guard_line f <> shebang.
Proof. discriminate. Qed.

(** ** Dictionaries *)

Module PyFacts.
Import Py.

Lemma keys_setitem d k v :
  keys (setitem d k v) = if in_dec string_dec k (keys d) then keys d else keys d ++ [k].
Proof.
  induction d as [|[k' v'] r IH]; simpl.
  - reflexivity.
  - destruct (String.eqb_spec k' k) as [->|Hne].
    + destruct (string_dec k k); [reflexivity | contradiction].
    + simpl. rewrite IH. unfold keys.
      destruct (string_dec k' k); [contradiction|].
      destruct (in_dec string_dec k (map fst r)); reflexivity.
Qed.

Lemma NoDup_keys_setitem d k v : NoDup (keys d) -> NoDup (keys (setitem d k v)).
Proof.
  intros H. rewrite keys_setitem.
  destruct (in_dec string_dec k (keys d)) as [|Hn]; [assumption|].
  apply NoDup_app; repeat split; auto.
  - constructor; [intros [] | constructor].
  - intros x Hx [<-|[]]. contradiction.
Qed.

Lemma getitem_setitem d k v k' :
  getitem (setitem d k v) k' = if String.eqb k k' then Some v else getitem d k'.
Proof.
  induction d as [|[a b] r IH]; simpl.
  - reflexivity.
  - destruct (String.eqb_spec a k) as [->|Hne]; simpl.
    + destruct (String.eqb_spec k k'); reflexivity.
    + rewrite IH. destruct (String.eqb_spec a k') as [->|]; [|reflexivity].
      destruct (String.eqb_spec k k'); [congruence | reflexivity].
Qed.

Lemma getitem_In d k v : getitem d k = Some v -> In (k, v) d.
Proof.
  induction d as [|[a b] r IH]; simpl; [discriminate|].
  destruct (String.eqb_spec a k) as [->|].
  - intros [= ->]. now left.
  - intros H. right. now apply IH.
Qed.

Lemma In_getitem d k v : NoDup (keys d) -> In (k, v) d -> getitem d k = Some v.
Proof.
  induction d as [|[a b] r IH]; simpl; [intros _ []|].
  intros Hnd [[= -> ->]|Hin].
  - now rewrite String.eqb_refl.
  - inversion Hnd as [|? ? Hna Hnd']; subst.
    destruct (String.eqb_spec a k) as [->|].
    + exfalso. apply Hna. change k with (fst (k, v)). now apply in_map.
    + now apply IH.
Qed.

Lemma getitem_keys d k : getitem d k <> None <-> In k (keys d).
Proof.
  induction d as [|[a b] r IH]; simpl.
  - split; [congruence | intros []].
  - destruct (String.eqb_spec a k) as [->|Hne].
    + split; [now left | discriminate].
    + rewrite IH. split; [now right | intros [|]; [contradiction | assumption]].
Qed.

End PyFacts.

(** ** First occurrences *)

Lemma filter_neq_id (x : string) l :
  ~ In x l -> filter (fun y => negb (String.eqb y x)) l = l.
Proof.
  induction l as [|a l IH]; simpl; intros H; [reflexivity|].
  destruct (String.eqb_spec a x) as [->|]; simpl.
  - exfalso. apply H. now left.
  - f_equal. apply IH. intros Hin. apply H. now right.
Qed.

Lemma uniq_NoDup l : NoDup l -> uniq l = l.
Proof.
  induction 1 as [|x l Hx Hnd IH]; simpl; [reflexivity|].
  rewrite IH. f_equal. now apply filter_neq_id.
Qed.

Lemma filter_neq_comm (x y : string) l :
  filter (fun z => negb (String.eqb z x)) (filter (fun z => negb (String.eqb z y)) l) =
  filter (fun z => negb (String.eqb z y)) (filter (fun z => negb (String.eqb z x)) l).
Proof.
  induction l as [|a l IH]; simpl; [reflexivity|].
  destruct (String.eqb a y) eqn:Hy, (String.eqb a x) eqn:Hx; simpl;
    rewrite ?Hx, ?Hy; simpl; now rewrite IH.
Qed.

Lemma filter_neq_idem (x : string) l :
  filter (fun z => negb (String.eqb z x)) (filter (fun z => negb (String.eqb z x)) l) =
  filter (fun z => negb (String.eqb z x)) l.
Proof.
  induction l as [|a l IH]; simpl; [reflexivity|].
  destruct (String.eqb a x) eqn:Hx; simpl; rewrite ?Hx; simpl; now rewrite IH.
Qed.

Lemma uniq_drop_filtered (f : string) A B :
  filter (fun z => negb (String.eqb z f)) (uniq (A ++ f :: B)) =
  filter (fun z => negb (String.eqb z f)) (uniq (A ++ B)).
Proof.
  induction A as [|a A IH]; simpl.
  - rewrite String.eqb_refl. simpl. apply filter_neq_idem.
  - destruct (String.eqb a f) eqn:Haf; simpl.
    + apply String.eqb_eq in Haf. subst a. rewrite !filter_neq_idem. exact IH.
    + f_equal. rewrite (filter_neq_comm f a), IH. apply filter_neq_comm.
Qed.

Lemma uniq_seen (f : string) A B :
  In f A -> uniq (A ++ f :: B) = uniq (A ++ B).
Proof.
  induction A as [|a A IH]; simpl; [intros []|].
  intros [->|Hin].
  - f_equal. apply uniq_drop_filtered.
  - now rewrite IH.
Qed.

(** ** The dictionary the loop builds *)

Section Mapping.
Variable E : env.

Lemma mapping_after_app l1 l2 m :
  mapping_after E (l1 ++ l2) m = mapping_after E l2 (mapping_after E l1 m).
Proof. apply fold_left_app. Qed.

Lemma NoDup_keys_step m c :
  NoDup (Py.keys m) -> NoDup (Py.keys (step_mapping E m c)).
Proof.
  unfold step_mapping. destruct (resolves E (fst c)); [|trivial].
  apply PyFacts.NoDup_keys_setitem.
Qed.

Lemma NoDup_keys_mapping_after cs : forall m,
  NoDup (Py.keys m) -> NoDup (Py.keys (mapping_after E cs m)).
Proof.
  induction cs as [|c cs IH]; intros m H; simpl; [assumption|].
  apply IH. now apply NoDup_keys_step.
Qed.

Lemma keys_mapping_after cs : forall m,
  NoDup (Py.keys m) ->
  Py.keys (mapping_after E cs m) = uniq (Py.keys m ++ resolved_ids E cs).
Proof.
  induction cs as [|c cs IH]; intros m Hnd; simpl.
  - rewrite app_nil_r. symmetry. now apply uniq_NoDup.
  - rewrite IH by now apply NoDup_keys_step.
    unfold step_mapping. destruct (resolves E (fst c)) as [f|]; simpl; [|reflexivity].
    rewrite PyFacts.keys_setitem.
    destruct (in_dec string_dec f (Py.keys m)) as [Hin|Hnin].
    + symmetry. now apply uniq_seen.
    + now rewrite <- app_assoc.
Qed.

(** Entries that resolve to something else leave a key's value alone. *)
Lemma getitem_mapping_after_other full cs : forall m,
  (forall c, In c cs -> resolves E (fst c) <> Some full) ->
  Py.getitem (mapping_after E cs m) full = Py.getitem m full.
Proof.
  induction cs as [|c cs IH]; intros m H; simpl; [reflexivity|].
  rewrite IH by (intros c' Hc'; apply H; now right).
  unfold step_mapping.
  destruct (resolves E (fst c)) as [f|] eqn:Hr; [|reflexivity].
  rewrite PyFacts.getitem_setitem.
  destruct (String.eqb_spec f full) as [->|]; [|reflexivity].
  exfalso. apply (H c); [now left | assumption].
Qed.

(** The value of a key is the date of the last entry resolving to it. *)
Lemma getitem_mapping_after_last l1 short date l2 full m :
  resolves E short = Some full ->
  (forall c, In c l2 -> resolves E (fst c) <> Some full) ->
  Py.getitem (mapping_after E (l1 ++ (short, date) :: l2) m) full = Some date.
Proof.
  intros Hr Hl2. rewrite mapping_after_app. simpl.
  rewrite getitem_mapping_after_other by assumption.
  unfold step_mapping; simpl. rewrite Hr, PyFacts.getitem_setitem.
  now rewrite String.eqb_refl.
Qed.

(** An entry that does not resolve might as well not be in the list. *)
Lemma mapping_after_skip l1 c l2 m :
  resolves E (fst c) = None ->
  mapping_after E (l1 ++ c :: l2) m = mapping_after E (l1 ++ l2) m.
Proof.
  intros Hr. rewrite !mapping_after_app. simpl.
  f_equal. unfold step_mapping. now rewrite Hr.
Qed.

(** Every item of the dictionary comes from an entry that resolved. *)
Lemma mapping_after_origin cs : forall m f d,
  In (f, d) (mapping_after E cs m) ->
  In (f, d) m \/ exists s, In (s, d) cs /\ resolves E s = Some f.
Proof.
  induction cs as [|[s0 d0] cs IH]; intros m f d H; simpl in H; [now left|].
  apply IH in H. destruct H as [H|(s & Hin & Hr)].
  - unfold step_mapping in H; simpl in H.
    destruct (resolves E s0) as [f0|] eqn:Hr0; [|now left].
    assert (Hcase : In (f, d) m \/ (f = f0 /\ d = d0)).
    { clear -H. induction m as [|[a b] m IHm]; simpl in H.
      - destruct H as [[= <- <-]|[]]. now right.
      - destruct (String.eqb_spec a f0) as [->|].
        + destruct H as [[= <- <-]|H]; [now right | left; now right].
        + destruct H as [H|H]; [left; now left|].
          destruct (IHm H) as [|]; [left; now right | now right]. }
    destruct Hcase as [|[-> ->]]; [now left|].
    right. exists s0. split; [now left | assumption].
  - right. exists s. split; [now right | assumption].
Qed.

End Mapping.

(** ** Reading the run of the program *)

Lemma printed_app a b : printed (a ++ b) = printed a ++ printed b.
Proof. apply flat_map_app. Qed.

Lemma spawned_app a b : spawned (a ++ b) = spawned a ++ spawned b.
Proof. apply flat_map_app. Qed.

Lemma written_app p a b : written p (a ++ b) = written p a ++ written p b.
Proof. apply flat_map_app. Qed.

Lemma printed_writes p ws : printed (map (Write p) ws) = [].
Proof. induction ws; simpl; auto. Qed.

Lemma spawned_writes p ws : spawned (map (Write p) ws) = [].
Proof. induction ws; simpl; auto. Qed.

Lemma written_writes p ws : written p (map (Write p) ws) = ws.
Proof.
  induction ws as [|w ws IH]; simpl; [reflexivity|].
  rewrite String.eqb_refl. simpl. now rewrite IH.
Qed.

Lemma printed_resolve E cs :
  printed (flat_map (resolve_events E) cs) = map (resolve_msg E) cs.
Proof. induction cs as [|c cs IH]; simpl; [reflexivity | now rewrite IH]. Qed.

Lemma spawned_resolve E cs :
  spawned (flat_map (resolve_events E) cs) = map (fun c => rev_parse (fst c)) cs.
Proof. induction cs as [|c cs IH]; simpl; [reflexivity | now rewrite IH]. Qed.

Lemma written_resolve E p cs : written p (flat_map (resolve_events E) cs) = [].
Proof. induction cs as [|c cs IH]; simpl; [reflexivity | exact IH]. Qed.

Lemma written_program cs E :
  written filter_name (trace (program cs E)) = shebang :: blocks (mapping_of cs E).
Proof.
  rewrite program_run. unfold trace, tail_events. cbn [fst].
  change (Print "Resolving hashes..." :: ?l) with ([Print "Resolving hashes..."] ++ l).
  rewrite written_app, written_app, written_resolve.
  change (Open filter_name :: ?l) with ([Open filter_name] ++ l).
  rewrite written_app, written_app, written_writes, written_app.
  destruct (returncode (run_process E (rewrite_cmd E)) =? 0)%Z; simpl;
    now rewrite app_nil_r.
Qed.

Lemma printed_program cs E :
  printed (trace (program cs E)) =
  "Resolving hashes..." :: map (resolve_msg E) cs
    ++ "Running git filter-branch..."
    :: (if (returncode (run_process E (rewrite_cmd E)) =? 0)%Z then ["Done!"] else []).
Proof.
  rewrite program_run. unfold trace, tail_events. cbn [fst].
  change (Print "Resolving hashes..." :: ?l) with ([Print "Resolving hashes..."] ++ l).
  rewrite printed_app, printed_app, printed_resolve.
  change (Open filter_name :: ?l) with ([Open filter_name] ++ l).
  rewrite printed_app, printed_app, printed_writes, printed_app.
  destruct (returncode (run_process E (rewrite_cmd E)) =? 0)%Z; reflexivity.
Qed.

Lemma spawned_program cs E :
  spawned (trace (program cs E)) =
  map (fun c => rev_parse (fst c)) cs ++ [rewrite_cmd E].
Proof.
  rewrite program_run. unfold trace, tail_events. cbn [fst].
  change (Print "Resolving hashes..." :: ?l) with ([Print "Resolving hashes..."] ++ l).
  rewrite spawned_app, spawned_app, spawned_resolve.
  change (Open filter_name :: ?l) with ([Open filter_name] ++ l).
  rewrite spawned_app, spawned_app, spawned_writes, spawned_app.
  destruct (returncode (run_process E (rewrite_cmd E)) =? 0)%Z; reflexivity.
Qed.

(** ** The file system along the run *)

Lemma concat_cons (d : string) ws :
  String.concat EmptyString (d :: ws) = (d ++ String.concat EmptyString ws)%string.
Proof. destruct ws; simpl; [now rewrite append_nil_r | reflexivity]. Qed.

Section FileSystem.
Variable E : env.

Lemma fs_after_app init a b :
  fs_after E init (a ++ b) = fs_after E (fs_after E init a) b.
Proof. apply fold_left_app. Qed.

Lemma fs_after_resolve cs init :
  fs_after E init (flat_map (resolve_events E) cs) = init.
Proof. induction cs as [|c cs IH]; simpl; [reflexivity | exact IH]. Qed.

Lemma fs_after_writes p ws : forall fs buf,
  pending fs p = Some buf ->
  disk (fs_after E fs (map (Write p) ws)) p = disk fs p /\
  pending (fs_after E fs (map (Write p) ws)) p =
    Some (buf ++ String.concat EmptyString ws)%string.
Proof.
  induction ws as [|w ws IH]; intros fs buf Hp.
  - simpl. now rewrite append_nil_r.
  - cbn [map fs_after fold_left fs_step]. rewrite Hp.
    edestruct (IH (mkFs (disk fs) (upd (pending fs) p (Some (buf ++ w)%string))))
      as [Hd Hq].
    { cbn. unfold upd. now rewrite String.eqb_refl. }
    unfold fs_after in Hd, Hq. rewrite Hd, Hq. cbn [disk].
    now rewrite concat_cons, append_assoc.
Qed.

Lemma fs_step_close fs p buf i :
  pending fs p = Some buf -> disk fs p = Some i ->
  disk (fs_step E fs (Close p)) p = Some (mkInode (data i ++ buf)%string (perm i)) /\
  pending (fs_step E fs (Close p)) p = None.
Proof.
  intros Hp Hd. unfold fs_step. rewrite Hp, Hd. cbn [disk pending].
  unfold upd. now rewrite String.eqb_refl.
Qed.

(** Open, write the pieces, close: the pieces are on disk, in order. *)
Lemma fs_after_open_write_close init p ws :
  let fs := fs_after E init (Open p :: map (Write p) ws ++ [Close p]) in
  disk fs p = Some (mkInode (String.concat EmptyString ws) (opened_mode E init p)) /\
  pending fs p = None.
Proof.
  cbn zeta. change (Open p :: ?l) with ([Open p] ++ l).
  rewrite fs_after_app, fs_after_app.
  set (fs1 := fs_after E init [Open p]).
  assert (H1 : pending fs1 p = Some EmptyString).
  { unfold fs1; cbn. unfold upd. now rewrite String.eqb_refl. }
  assert (H2 : disk fs1 p = Some (mkInode EmptyString (opened_mode E init p))).
  { unfold fs1; cbn. unfold upd. now rewrite String.eqb_refl. }
  destruct (fs_after_writes p ws fs1 _ H1) as [Hd Hq].
  rewrite H2 in Hd.
  change (fs_after E ?f [Close p]) with (fs_step E f (Close p)).
  exact (fs_step_close _ _ _ _ Hq Hd).
Qed.

End FileSystem.

(** ** The shape of a run *)

Lemma trace_shape cs E :
  trace (program cs E) =
  head_events E cs
    ++ [Chmod filter_name 493%Z; Print "Running git filter-branch...";
        Spawn (rewrite_cmd E)]
    ++ done_events E.
Proof.
  rewrite program_run. unfold trace, tail_events, head_events, done_events.
  cbn [fst app]. f_equal. rewrite <- !app_assoc. f_equal. cbn [app]. f_equal.
  rewrite <- !app_assoc. reflexivity.
Qed.

Section Run.
Variable E : env.
Variable init : fsys.
Variable cs : list (string * string).

Lemma fs_after_inert l fs : forallb inert l = true -> fs_after E fs l = fs.
Proof.
  revert fs; induction l as [|e l IH]; intros fs H; [reflexivity|].
  simpl in H. apply andb_true_iff in H as [He Hl].
  destruct e; try discriminate; simpl; now apply IH.
Qed.

Lemma fs_after_head :
  let fs := fs_after E init (head_events E cs) in
  disk fs filter_name =
    Some (mkInode (filter_body (mapping_of cs E)) (opened_mode E init filter_name)) /\
  pending fs filter_name = None.
Proof.
  unfold head_events.
  change (Print "Resolving hashes..." :: ?l) with ([Print "Resolving hashes..."] ++ l).
  rewrite fs_after_app, fs_after_app, fs_after_resolve.
  change (fs_after E init [Print "Resolving hashes..."]) with init.
  apply fs_after_open_write_close.
Qed.

Lemma fs_after_chmod fs m i l :
  disk fs filter_name = Some i -> pending fs filter_name = None ->
  forallb inert l = true ->
  let fs' := fs_after E fs (Chmod filter_name m :: l) in
  disk fs' filter_name = Some (mkInode (data i) m) /\ pending fs' filter_name = None.
Proof.
  intros Hd Hp Hl. cbn zeta.
  change (Chmod filter_name m :: l) with ([Chmod filter_name m] ++ l).
  rewrite fs_after_app, (fs_after_inert _ _ Hl).
  cbn [fs_after fold_left fs_step]. rewrite Hd. cbn [disk pending].
  unfold upd at 1. rewrite String.eqb_refl. now split.
Qed.

Lemma done_events_inert : forallb inert (done_events E) = true.
Proof. unfold done_events. now destruct (_ =? _)%Z. Qed.

(** The file system once the whole program has run. *)
Lemma fs_after_program :
  let fs := fs_after E init (trace (program cs E)) in
  disk fs filter_name = Some (mkInode (filter_body (mapping_of cs E)) 493%Z) /\
  pending fs filter_name = None.
Proof.
  cbn zeta. rewrite trace_shape, fs_after_app.
  destruct fs_after_head as [Hd Hp].
  change ([Chmod filter_name 493%Z; ?a; ?b] ++ ?l)
    with (Chmod filter_name 493%Z :: [a; b] ++ l).
  apply (fs_after_chmod _ _ _ _ Hd Hp).
  rewrite forallb_app. apply done_events_inert.
Qed.

Lemma filter_text_program :
  filter_text cs E init = Some (filter_body (mapping_of cs E)).
Proof.
  unfold filter_text, contents. destruct fs_after_program as [-> _]. reflexivity.
Qed.

End Run.

(** ** Blocks of the filter *)

Lemma blocks_app a b : blocks (a ++ b) = blocks a ++ blocks b.
Proof. apply flat_map_app. Qed.

Lemma count_guard_exports f d rest :
  count_occ string_dec (author_line d :: committer_line d :: fi_line :: rest)
    (guard_line f) =
  count_occ string_dec rest (guard_line f).
Proof.
  rewrite count_occ_cons_neq
    by (intros H; symmetry in H; revert H; apply guard_not_author).
  rewrite count_occ_cons_neq
    by (intros H; symmetry in H; revert H; apply guard_not_committer).
  rewrite count_occ_cons_neq
    by (intros H; symmetry in H; revert H; apply guard_not_fi).
  reflexivity.
Qed.

Lemma count_guard_blocks its f :
  count_occ string_dec (blocks its) (guard_line f) =
  count_occ string_dec (map fst its) f.
Proof.
  induction its as [|[k d] its IH]; [reflexivity|].
  cbn [blocks flat_map block app fst snd map].
  fold (blocks its).
  destruct (string_dec k f) as [->|Hne].
  - rewrite (count_occ_cons_eq string_dec _ (eq_refl (guard_line f))).
    rewrite (count_occ_cons_eq string_dec _ (eq_refl f)).
    now rewrite count_guard_exports, IH.
  - rewrite (count_occ_cons_neq string_dec (map fst its) Hne).
    rewrite count_occ_cons_neq
      by (intros H; apply guard_line_inj in H; contradiction).
    now rewrite count_guard_exports.
Qed.

Lemma one_block_of_item m f d :
  NoDup (Py.keys m) -> In (f, d) m -> one_block (shebang :: blocks m) f d.
Proof.
  intros Hnd Hin. split.
  - rewrite count_occ_cons_neq.
    2:{ intros H. symmetry in H. revert H. apply guard_not_shebang. }
    rewrite count_guard_blocks.
    assert (Hk : In f (map fst m)) by (change f with (fst (f, d)); now apply in_map).
    apply (count_occ_In string_dec) in Hk.
    pose proof (proj1 (NoDup_count_occ string_dec (map fst m)) Hnd f). lia.
  - apply in_split in Hin as (m1 & m2 & ->).
    exists (shebang :: blocks m1), (blocks m2).
    rewrite blocks_app. reflexivity.
Qed.

Lemma NoDup_keys_mapping_of cs E : NoDup (Py.keys (mapping_of cs E)).
Proof.
  rewrite mapping_of_after. apply NoDup_keys_mapping_after. constructor.
Qed.

Lemma resolves_to_true E full c :
  resolves_to E full c = true <-> resolves E (fst c) = Some full.
Proof.
  unfold resolves_to. destruct (resolves E (fst c)) as [f|].
  - rewrite String.eqb_eq. split; [now intros -> | now intros [= ->]].
  - split; discriminate.
Qed.

Lemma last_resolving_exists E full cs :
  (exists c, In c cs /\ resolves E (fst c) = Some full) ->
  exists date, last_resolving E cs full date.
Proof.
  induction cs as [|[s d] cs IH]; intros (c & Hin & Hr); [destruct Hin|].
  destruct (existsb (resolves_to E full) cs) eqn:Hex.
  - apply existsb_exists in Hex as (c' & Hin' & Hr').
    apply resolves_to_true in Hr'.
    destruct IH as (date & l1 & short & l2 & -> & Hs & Hl2); [now exists c'|].
    exists date, ((s, d) :: l1), short, l2. now repeat split.
  - assert (Hnone : forall c', In c' cs -> resolves E (fst c') <> Some full).
    { intros c' Hin' Hr'. apply resolves_to_true in Hr'.
      assert (existsb (resolves_to E full) cs = true)
        by (apply existsb_exists; now exists c').
      congruence. }
    destruct Hin as [<-|Hin]; [|now elim (Hnone c Hin)].
    exists d, [], s, cs. now repeat split.
Qed.

Lemma last_resolving_getitem E cs full date :
  last_resolving E cs full date ->
  Py.getitem (mapping_of cs E) full = Some date.
Proof.
  intros (l1 & short & l2 & -> & Hr & Hl2).
  rewrite mapping_of_after. now apply getitem_mapping_after_last.
Qed.

Lemma last_resolving_one_block E cs full date :
  last_resolving E cs full date ->
  one_block (written filter_name (trace (program cs E))) full date.
Proof.
  intros H. rewrite written_program.
  apply one_block_of_item; [apply NoDup_keys_mapping_of|].
  apply PyFacts.getitem_In. now apply last_resolving_getitem.
Qed.

Lemma resolve_loop_app E pre post :
  outcome (resolve_loop (pre ++ post) Py.empty E) =
  outcome (resolve_loop post (mapping_of pre E) E).
Proof.
  rewrite !resolve_loop_run, mapping_of_after. unfold outcome; cbn [snd].
  now rewrite mapping_after_app.
Qed.

Lemma keys_mapping_of cs E :
  Py.keys (mapping_of cs E) = uniq (resolved_ids E cs).
Proof.
  rewrite mapping_of_after, keys_mapping_after by constructor. reflexivity.
Qed.

Lemma spawned_tail E m : spawned (tail_events E m) = [rewrite_cmd E].
Proof.
  unfold tail_events.
  change (Open filter_name :: ?l) with ([Open filter_name] ++ l).
  rewrite spawned_app, spawned_app, spawned_writes, spawned_app.
  destruct (returncode (run_process E (rewrite_cmd E)) =? 0)%Z; reflexivity.
Qed.

Lemma printed_tail E m :
  printed (tail_events E m) =
  "Running git filter-branch..."
    :: (if (returncode (run_process E (rewrite_cmd E)) =? 0)%Z then ["Done!"] else []).
Proof.
  unfold tail_events.
  change (Open filter_name :: ?l) with ([Open filter_name] ++ l).
  rewrite printed_app, printed_app, printed_writes, printed_app.
  destruct (returncode (run_process E (rewrite_cmd E)) =? 0)%Z; reflexivity.
Qed.

Lemma written_skip E l1 c l2 :
  resolves E (fst c) = None ->
  written filter_name (trace (program (l1 ++ c :: l2) E)) =
  written filter_name (trace (program (l1 ++ l2) E)).
Proof.
  intros Hr. rewrite !written_program, !mapping_of_after.
  now rewrite mapping_after_skip.
Qed.

Lemma mapping_after_none E cs : forall m,
  (forall c, In c cs -> resolves E (fst c) = None) ->
  mapping_after E cs m = m.
Proof.
  induction cs as [|c cs IH]; intros m H; simpl; [reflexivity|].
  rewrite IH by (intros c' Hc'; apply H; now right).
  unfold step_mapping. now rewrite (H c) by now left.
Qed.

Lemma mapping_after_agree E1 E2 cs : forall m,
  (forall c, In c cs -> resolves E1 (fst c) = resolves E2 (fst c)) ->
  mapping_after E1 cs m = mapping_after E2 cs m.
Proof.
  induction cs as [|c cs IH]; intros m H; simpl; [reflexivity|].
  rewrite IH by (intros c' Hc'; apply H; now right).
  unfold step_mapping. now rewrite (H c) by now left.
Qed.

Lemma resolve_msg_not_done E c : resolve_msg E c <> "Done!".
Proof.
  unfold resolve_msg. intros H. apply (f_equal String.length) in H.
  destruct (resolves E (fst c)); rewrite !length_append in H; simpl in H; lia.
Qed.

Lemma In_Print_printed s t : In (Print s) t -> In s (printed t).
Proof.
  intros H. unfold printed. apply in_flat_map. exists (Print s).
  split; [exact H | now left].
Qed.

(** ** Steps that use the filter *)

Lemma head_events_no_use E cs x :
  In x (head_events E cs) -> uses_filter x = false.
Proof.
  unfold head_events. intros [<-|H]; [reflexivity|].
  apply in_app_or in H as [H|H].
  - apply in_flat_map in H as (c & _ & [<-|[<-|[]]]); reflexivity.
  - destruct H as [<-|H]; [reflexivity|].
    apply in_app_or in H as [H|[<-|[]]]; [|reflexivity].
    apply in_map_iff in H as (w & <- & _). reflexivity.
Qed.

Lemma split_after_unused (A B pre : list event) e post :
  (forall x, In x A -> uses_filter x = false) ->
  A ++ B = pre ++ e :: post ->
  uses_filter e = true ->
  exists B1, pre = A ++ B1 /\ B = B1 ++ e :: post.
Proof.
  revert pre. induction A as [|a A IH]; intros pre HA Heq He.
  - exists pre. now split.
  - destruct pre as [|p pre]; simpl in Heq.
    + injection Heq as <- _. rewrite (HA a) in He by now left. discriminate.
    + injection Heq as <- Heq.
      destruct (IH pre) as (B1 & -> & HB); auto.
      { intros x Hx. apply HA. now right. }
      exists B1. now split.
Qed.

(** A step that uses the filter comes right after the file is closed, or
    two steps later. *)
Lemma use_positions E cs pre e post :
  trace (program cs E) = pre ++ e :: post ->
  uses_filter e = true ->
  pre = head_events E cs \/
  pre = head_events E cs
          ++ [Chmod filter_name 493%Z; Print "Running git filter-branch..."].
Proof.
  rewrite trace_shape. intros Heq He.
  destruct (split_after_unused _ _ _ _ _ (head_events_no_use E cs) Heq He)
    as (B1 & -> & HB).
  destruct B1 as [|b1 [|b2 [|b3 B1]]]; cbn [app] in HB.
  - left. now rewrite app_nil_r.
  - injection HB as _ <- _. discriminate He.
  - injection HB as <- <- _. now right.
  - injection HB as _ _ _ HB. unfold done_events in HB.
    destruct (_ =? _)%Z.
    + destruct B1 as [|b4 B1]; cbn [app] in HB.
      * injection HB as <- _. discriminate He.
      * injection HB as _ HB. now destruct B1.
    + now destruct B1.
Qed.

Lemma written_head E cs :
  written filter_name (head_events E cs) = shebang :: blocks (mapping_of cs E).
Proof.
  unfold head_events.
  change (Print "Resolving hashes..." :: ?l) with ([Print "Resolving hashes..."] ++ l).
  rewrite written_app, written_app, written_resolve.
  change (Open filter_name :: ?l) with ([Open filter_name] ++ l).
  rewrite written_app, written_app, written_writes. cbn. now rewrite app_nil_r.
Qed.

Lemma Open_in_head E cs : In (Open filter_name) (head_events E cs).
Proof. unfold head_events. right. apply in_or_app. right. now left. Qed.

Lemma Close_in_head E cs : In (Close filter_name) (head_events E cs).
Proof.
  unfold head_events. right. apply in_or_app. right. right.
  apply in_or_app. right. now left.
Qed.

(** ** The sample environments at work *)

Example sample_ids_full_length :
  String.length sample_id = 40 /\ String.length other_id = 40.
Proof. split; reflexivity. Qed.

Example shared_mapping :
  mapping_of commits env_shared =
  [(sample_id, "2025-11-19T14:00:00"); (other_id, "2025-11-20T09:00:00")].
Proof. reflexivity. Qed.

(** * The claims *)

(** ** The blocks of the filter (C1) *)

(** C1 as stated fails: in [env_shared] the entry [afadbad] resolves, but
    the one block for its identifier carries the date of [32cac5d]. *)
Lemma C1_as_stated_fails :
  ~ (forall E short date full,
        In (short, date) commits ->
        resolves E short = Some full ->
        one_block (written filter_name (trace (main E))) full date).
Proof.
  intros H.
  destruct (H env_shared "afadbad" "2025-11-19T10:00:00" sample_id)
    as [_ (pre & post & Heq)].
  - now left.
  - reflexivity.
  - assert (Hin : In (author_line "2025-11-19T10:00:00")
                     (written filter_name (trace (main env_shared)))).
    { rewrite Heq. apply in_or_app. right. right. now left. }
    vm_compute in Hin.
    repeat (destruct Hin as [Hin|Hin]; [discriminate Hin|]). exact Hin.
Qed.

(** C1 (amended): for every entry of the commit list that resolves to an
    identifier, the filter holds exactly one block guarded by that
    identifier, and the block sets both dates to the timestamp of the
    last entry of the list resolving to that identifier; that is the
    entry's own timestamp when no later entry resolves to the same
    identifier.  The text of the file is the concatenation of the
    strings written, so the block is in the file as it is written. *)
Theorem C1_one_block_per_resolved_entry :
  forall E init l1 short date l2 full,
    commits = l1 ++ (short, date) :: l2 ->
    resolves E short = Some full ->
    exists date',
      last_resolving E commits full date' /\
      one_block (written filter_name (trace (main E))) full date' /\
      filter_text commits E init =
        Some (String.concat EmptyString (written filter_name (trace (main E)))) /\
      ((forall c, In c l2 -> resolves E (fst c) <> Some full) -> date' = date).
Proof.
  intros E init l1 short date l2 full Hc Hr.
  destruct (last_resolving_exists E full commits) as [date' Hlast].
  { exists (short, date). split; [|exact Hr].
    rewrite Hc. apply in_or_app. right. now left. }
  exists date'. split; [exact Hlast|]. split; [|split].
  - now apply last_resolving_one_block.
  - unfold main. now rewrite filter_text_program, written_program.
  - intros Hl2.
    assert (Hmine : last_resolving E commits full date)
      by (exists l1, short, l2; now repeat split).
    apply last_resolving_getitem in Hlast, Hmine. congruence.
Qed.

(** The amended C1 at [env_shared], for the entry [32cac5d], the last one
    resolving to [sample_id]. *)
Lemma C1_one_block_per_resolved_entry_witness :
  exists date',
    last_resolving env_shared commits sample_id date' /\
    one_block (written filter_name (trace (main env_shared))) sample_id date' /\
    filter_text commits env_shared no_files =
      Some (String.concat EmptyString
              (written filter_name (trace (main env_shared)))) /\
    ((forall c, In c (tl (tl commits)) ->
        resolves env_shared (fst c) <> Some sample_id) ->
     date' = "2025-11-19T14:00:00").
Proof.
  apply (C1_one_block_per_resolved_entry env_shared no_files
           [("afadbad", "2025-11-19T10:00:00")] "32cac5d" "2025-11-19T14:00:00"
           (tl (tl commits)) sample_id).
  - reflexivity.
  - reflexivity.
Defined.

(** ** Failure of the rewrite (C2) *)

(** C2: when the rewrite exits with a non-zero status the run ends in an
    uncaught [CalledProcessError], the exit status of the script is not
    zero and [Done!] is never printed; when it exits with status zero the
    script prints [Done!] as its last action and ends normally, with exit
    status zero. *)
Theorem C2_rewrite_failure_is_fatal :
  forall E,
    (returncode (run_process E (rewrite_cmd E)) <> 0%Z ->
     outcome (main E) =
       inr (CalledProcessError (returncode (run_process E (rewrite_cmd E)))
              (rewrite_cmd E)) /\
     exit_status (outcome (main E)) <> 0%Z /\
     ~ In "Done!" (printed (trace (main E))) /\
     ~ In (Print "Done!") (trace (main E)) /\
     exists t, trace (main E) = t ++ [Spawn (rewrite_cmd E)]) /\
    (returncode (run_process E (rewrite_cmd E)) = 0%Z ->
     outcome (main E) = inl tt /\
     exit_status (outcome (main E)) = 0%Z /\
     exists t, trace (main E) = t ++ [Spawn (rewrite_cmd E); Print "Done!"]).
Proof.
  intros E. split; intros Hcode.
  - apply Z.eqb_neq in Hcode.
    assert (Hnot : ~ In "Done!" (printed (trace (main E)))).
    { unfold main. rewrite printed_program, Hcode.
      intros [H|H]; [discriminate H|].
      apply in_app_or in H as [H|[H|[]]]; [|discriminate H].
      apply in_map_iff in H as (c & Hc & _). revert Hc. apply resolve_msg_not_done. }
    repeat split.
    + unfold main, outcome. rewrite program_run. cbn [snd]. now rewrite Hcode.
    + unfold main, outcome. rewrite program_run. cbn [snd]. rewrite Hcode. discriminate.
    + exact Hnot.
    + intros H. apply Hnot. now apply In_Print_printed.
    + unfold main. rewrite trace_shape. unfold done_events. rewrite Hcode.
      exists (head_events E commits
                ++ [Chmod filter_name 493%Z; Print "Running git filter-branch..."]).
      rewrite app_nil_r, <- app_assoc. reflexivity.
  - apply Z.eqb_eq in Hcode. repeat split.
    + unfold main, outcome. rewrite program_run. cbn [snd]. now rewrite Hcode.
    + unfold main, outcome. rewrite program_run. cbn [snd]. now rewrite Hcode.
    + unfold main. rewrite trace_shape. unfold done_events. rewrite Hcode.
      exists (head_events E commits
                ++ [Chmod filter_name 493%Z; Print "Running git filter-branch..."]).
      rewrite <- app_assoc. reflexivity.
Qed.

(** C2 at [env_unknown], where the rewrite fails, and at [env_shared],
    where it succeeds. *)
Lemma C2_rewrite_failure_is_fatal_witness :
  (outcome (main env_unknown) =
     inr (CalledProcessError
            (returncode (run_process env_unknown (rewrite_cmd env_unknown)))
            (rewrite_cmd env_unknown)) /\
   exit_status (outcome (main env_unknown)) <> 0%Z /\
   ~ In "Done!" (printed (trace (main env_unknown))) /\
   ~ In (Print "Done!") (trace (main env_unknown)) /\
   exists t, trace (main env_unknown) = t ++ [Spawn (rewrite_cmd env_unknown)]) /\
  (outcome (main env_shared) = inl tt /\
   exit_status (outcome (main env_shared)) = 0%Z /\
   exists t, trace (main env_shared) = t ++ [Spawn (rewrite_cmd env_shared); Print "Done!"]).
Proof.
  split.
  - apply (proj1 (C2_rewrite_failure_is_fatal env_unknown)). vm_compute. discriminate.
  - apply (proj2 (C2_rewrite_failure_is_fatal env_shared)). reflexivity.
Defined.

(** ** Entries that do not resolve (C3) *)

(** C3: an entry of the commit list whose resolution fails gets the
    failure message right after its [git rev-parse]; the dictionary is
    left as it was, so the run builds the dictionary and writes the
    filter of the list without that entry, and every item of the
    dictionary stems from an entry that did resolve; the loop goes on to
    resolve every later entry, print a line for each, and the run ends
    with the rewrite. *)
Theorem C3_failed_resolution_is_skipped :
  forall E l1 short date l2,
    commits = l1 ++ (short, date) :: l2 ->
    resolves E short = None ->
    (exists t1 t2,
        trace (main E) =
          t1 ++ Spawn (rev_parse short)
             :: Print ("Could not resolve " ++ short) :: t2 /\
        spawned t1 = map (fun c => rev_parse (fst c)) l1 /\
        spawned t2 = map (fun c => rev_parse (fst c)) l2 ++ [rewrite_cmd E] /\
        printed t2 =
          map (resolve_msg E) l2
            ++ "Running git filter-branch..."
            :: (if (returncode (run_process E (rewrite_cmd E)) =? 0)%Z
                then ["Done!"] else [])) /\
    mapping_of (l1 ++ [(short, date)]) E = mapping_of l1 E /\
    mapping_of commits E = mapping_of (l1 ++ l2) E /\
    written filter_name (trace (main E)) =
      written filter_name (trace (program (l1 ++ l2) E)) /\
    (forall full d,
        In (full, d) (Py.items (mapping_of commits E)) ->
        exists s, In (s, d) commits /\ resolves E s = Some full).
Proof.
  intros E l1 short date l2 Hc Hr. repeat split.
  - exists (Print "Resolving hashes..." :: flat_map (resolve_events E) l1),
           (flat_map (resolve_events E) l2 ++ tail_events E (mapping_of commits E)).
    repeat split.
    + unfold main. rewrite program_run. unfold trace; cbn [fst].
      rewrite Hc at 1. rewrite flat_map_app. cbn [flat_map].
      unfold resolve_events at 2, resolve_msg. cbn [fst snd]. rewrite Hr.
      cbn [app]. rewrite <- app_assoc. reflexivity.
    + cbn [spawned flat_map app]. apply spawned_resolve.
    + rewrite spawned_app, spawned_resolve, spawned_tail. reflexivity.
    + rewrite printed_app, printed_resolve, printed_tail. reflexivity.
  - rewrite !mapping_of_after.
    rewrite <- (app_nil_r l1) at 2.
    now apply (mapping_after_skip E l1 (short, date) []).
  - rewrite Hc, !mapping_of_after. now apply (mapping_after_skip E l1 (short, date)).
  - unfold main. rewrite Hc. now apply (written_skip E l1 (short, date)).
  - intros full d Hin. unfold Py.items in Hin. rewrite mapping_of_after in Hin.
    apply mapping_after_origin in Hin. destruct Hin as [[]|Hin]. exact Hin.
Qed.

(** C3 at [env_shared], for the fourth entry, [09dcc55], which does not
    resolve there. *)
Lemma C3_failed_resolution_is_skipped_witness :
  (exists t1 t2,
      trace (main env_shared) =
        t1 ++ Spawn (rev_parse "09dcc55")
           :: Print ("Could not resolve " ++ "09dcc55") :: t2 /\
      spawned t1 = map (fun c => rev_parse (fst c)) (firstn 3 commits) /\
      spawned t2 =
        map (fun c => rev_parse (fst c)) (skipn 4 commits) ++ [rewrite_cmd env_shared] /\
      printed t2 =
        map (resolve_msg env_shared) (skipn 4 commits)
          ++ "Running git filter-branch..."
          :: (if (returncode (run_process env_shared (rewrite_cmd env_shared)) =? 0)%Z
              then ["Done!"] else [])) /\
  mapping_of (firstn 3 commits ++ [("09dcc55", "2025-11-20T11:00:00")]) env_shared =
    mapping_of (firstn 3 commits) env_shared /\
  mapping_of commits env_shared = mapping_of (firstn 3 commits ++ skipn 4 commits) env_shared /\
  written filter_name (trace (main env_shared)) =
    written filter_name (trace (program (firstn 3 commits ++ skipn 4 commits) env_shared)) /\
  (forall full d,
      In (full, d) (Py.items (mapping_of commits env_shared)) ->
      exists s, In (s, d) commits /\ resolves env_shared s = Some full).
Proof.
  apply (C3_failed_resolution_is_skipped env_shared
           (firstn 3 commits) "09dcc55" "2025-11-20T11:00:00" (skipn 4 commits)).
  - reflexivity.
  - reflexivity.
Defined.

(** ** The timestamps (C4) *)

(** C4 as stated fails: the timestamps of the list carry no offset. *)
Lemma C4_as_stated_fails :
  ~ (forall c, In c commits -> iso8601_with_offset (snd c) = true).
Proof.
  intros H. specialize (H ("afadbad", "2025-11-19T10:00:00") (or_introl eq_refl)).
  discriminate H.
Qed.

(** C4 (amended): every timestamp of the commit list is an ISO-8601 date
    and time of the form [YYYY-MM-DDTHH:MM:SS] with no time zone offset,
    and in every block of the filter the author date and the committer
    date are one and the same string, a timestamp of the list. *)
Theorem C4_timestamps_local_and_shared :
  (forall c, In c commits ->
     iso8601_local (snd c) = true /\ iso8601_with_offset (snd c) = false) /\
  (forall E, exists its,
     written filter_name (trace (main E)) =
       shebang :: flat_map (fun it => [guard_line (fst it);
                                       author_line (snd it);
                                       committer_line (snd it);
                                       fi_line]) its /\
     forall it, In it its -> In (snd it) (map snd commits)).
Proof.
  split.
  - intros c Hin.
    assert (Hall : forallb (fun c => iso8601_local (snd c)
                                     && negb (iso8601_with_offset (snd c))) commits
                   = true) by reflexivity.
    rewrite forallb_forall in Hall. specialize (Hall c Hin).
    apply andb_true_iff in Hall as [H1 H2]. apply negb_true_iff in H2. now split.
  - intros E. exists (mapping_of commits E). split.
    + unfold main. apply written_program.
    + intros [f d] Hin. rewrite mapping_of_after in Hin.
      apply mapping_after_origin in Hin as [[]|(s & Hs & _)].
      cbn [snd]. apply in_map_iff. exists (s, d). now split.
Qed.

(** ** The rewrite command (C5) *)

(** C5: the processes of a run are one [git rev-parse] per entry of the
    commit list, in order, and then exactly one more, [git filter-branch
    --env-filter P --force -- --all], where [P] is the absolute path of
    [date_filter.sh], the file the script opened and wrote. *)
Theorem C5_rewrite_command :
  forall E,
    spawned (trace (main E)) =
      map (fun c => ["git"; "rev-parse"; fst c]) commits
        ++ [["git"; "filter-branch"; "--env-filter"; abspath E "date_filter.sh";
             "--force"; "--"; "--all"]] /\
    In (Open "date_filter.sh") (trace (main E)) /\
    (forall p d, In (Write p d) (trace (main E)) -> p = "date_filter.sh").
Proof.
  intros E. repeat split.
  - apply spawned_program.
  - unfold main. rewrite trace_shape. apply in_or_app. left.
    unfold head_events. right. apply in_or_app. right. now left.
  - intros p d. unfold main. rewrite program_run. unfold trace, tail_events. cbn [fst].
    intros [H|H]; [discriminate H|].
    apply in_app_or in H as [H|H].
    { apply in_flat_map in H as (c & _ & [H|[H|[]]]); discriminate H. }
    destruct H as [H|H]; [discriminate H|].
    apply in_app_or in H as [H|H].
    { apply in_map_iff in H as (w & [= <- _] & _). reflexivity. }
    apply in_app_or in H as [H|H].
    { repeat (destruct H as [H|H]; [discriminate H|]). destruct H. }
    destruct (returncode (run_process E (rewrite_cmd E)) =? 0)%Z;
      repeat (destruct H as [H|H]; [discriminate H|]); destruct H.
Qed.

(** ** Permissions (C6) *)

(** C6: the run closes the filter, then sets its mode to [0o755], then
    prints a line and starts the rewrite; nothing is written to the file
    after that, the mode of the file is [0o755] when the rewrite starts
    and when the run is over, and [0o755] has the execute bit of owner,
    group and others. *)
Theorem C6_filter_made_executable :
  forall E init,
    exists pre post,
      trace (main E) =
        pre ++ [Close filter_name; Chmod filter_name 493%Z;
                Print "Running git filter-branch..."; Spawn (rewrite_cmd E)]
            ++ post /\
      written filter_name pre = written filter_name (trace (main E)) /\
      mode (fs_after E init
              (pre ++ [Close filter_name; Chmod filter_name 493%Z;
                       Print "Running git filter-branch..."])) filter_name
        = Some 493%Z /\
      mode (fs_after E init (trace (main E))) filter_name = Some 493%Z /\
      executable_by_all 493 = true /\
      (493 = 7 * 64 + 5 * 8 + 5)%Z.
Proof.
  intros E init.
  set (pre := Print "Resolving hashes..." :: flat_map (resolve_events E) commits
                ++ Open filter_name
                :: map (Write filter_name) (shebang :: blocks (mapping_of commits E))).
  assert (Hhead : head_events E commits = pre ++ [Close filter_name]).
  { unfold head_events, pre. cbn [app]. now rewrite <- app_assoc. }
  exists pre, (done_events E). repeat split.
  - unfold main. rewrite trace_shape, Hhead, <- app_assoc. reflexivity.
  - unfold main. rewrite written_program, <- (written_head E commits), Hhead.
    rewrite written_app. cbn. now rewrite app_nil_r.
  - destruct (fs_after_head E init commits) as [Hd Hp].
    destruct (fs_after_chmod E _ 493%Z _ [Print "Running git filter-branch..."]
                Hd Hp eq_refl) as [Hd' _].
    rewrite <- fs_after_app, Hhead, <- app_assoc in Hd'. cbn [app] in Hd'.
    unfold mode. now rewrite Hd'.
  - unfold mode, main. destruct (fs_after_program E init commits) as [-> _].
    reflexivity.
Qed.

(** ** Nothing resolves (C7) *)

(** C7: when no entry of the commit list resolves, the dictionary is
    empty, the only thing written to the filter is the [#!/bin/sh] line,
    which is then all the file holds, and the rewrite is still started:
    the last process of the run is [git filter-branch --env-filter P
    --force -- --all] with [P] the absolute path of [date_filter.sh], and
    when it starts the file on disk is closed and holds exactly the
    [#!/bin/sh] line. *)
Theorem C7_nothing_resolves :
  forall E init,
    (forall c, In c commits -> resolves E (fst c) = None) ->
    mapping_of commits E = Py.empty /\
    written "date_filter.sh" (trace (main E)) = ["#!/bin/sh" ++ nl]%string /\
    filter_text commits E init = Some ("#!/bin/sh" ++ nl)%string /\
    spawned (trace (main E)) =
      map (fun c => ["git"; "rev-parse"; fst c]) commits
        ++ [["git"; "filter-branch"; "--env-filter"; abspath E "date_filter.sh";
             "--force"; "--"; "--all"]] /\
    exists pre post,
      trace (main E) =
        pre ++ Spawn ["git"; "filter-branch"; "--env-filter";
                      abspath E "date_filter.sh"; "--force"; "--"; "--all"]
            :: post /\
      closed (fs_after E init pre) "date_filter.sh" = true /\
      contents (fs_after E init pre) "date_filter.sh"
        = Some ("#!/bin/sh" ++ nl)%string /\
      (forall argv, In argv (spawned pre) -> is_filter_branch argv = false) /\
      spawned post = [].
Proof.
  intros E init Hnone.
  assert (Hm : mapping_of commits E = Py.empty).
  { rewrite mapping_of_after. now apply mapping_after_none. }
  split; [exact Hm|].
  split; [unfold main; change "date_filter.sh" with filter_name;
          rewrite written_program, Hm; reflexivity|].
  split; [rewrite filter_text_program, Hm; reflexivity|].
  split; [apply spawned_program|].
  exists (head_events E commits
            ++ [Chmod filter_name 493%Z; Print "Running git filter-branch..."]),
         (done_events E).
  destruct (fs_after_head E init commits) as [Hd Hp].
  destruct (fs_after_chmod E _ 493%Z _ [Print "Running git filter-branch..."]
              Hd Hp eq_refl) as [Hd' Hp'].
  rewrite <- fs_after_app in Hd', Hp'.
  change "date_filter.sh" with filter_name.
  repeat split.
  - unfold main. rewrite trace_shape, <- app_assoc. reflexivity.
  - unfold closed. now rewrite Hp'.
  - unfold contents. rewrite Hd', Hm. reflexivity.
  - intros argv Hin. rewrite spawned_app in Hin.
    apply in_app_or in Hin as [Hin|[]].
    unfold spawned in Hin. apply in_flat_map in Hin as (e & He & Hin).
    pose proof (head_events_no_use E commits e He) as Hu.
    destruct e; try (now destruct Hin).
    destruct Hin as [<-|[]]. exact Hu.
  - unfold done_events. now destruct (_ =? _)%Z.
Qed.

(** C7 at [env_unknown], starting from an empty file system. *)
Lemma C7_nothing_resolves_witness :
  mapping_of commits env_unknown = Py.empty /\
  written "date_filter.sh" (trace (main env_unknown)) = ["#!/bin/sh" ++ nl]%string /\
  filter_text commits env_unknown no_files = Some ("#!/bin/sh" ++ nl)%string /\
  spawned (trace (main env_unknown)) =
    map (fun c => ["git"; "rev-parse"; fst c]) commits
      ++ [["git"; "filter-branch"; "--env-filter";
           abspath env_unknown "date_filter.sh"; "--force"; "--"; "--all"]] /\
  exists pre post,
    trace (main env_unknown) =
      pre ++ Spawn ["git"; "filter-branch"; "--env-filter";
                    abspath env_unknown "date_filter.sh"; "--force"; "--"; "--all"]
          :: post /\
    closed (fs_after env_unknown no_files pre) "date_filter.sh" = true /\
    contents (fs_after env_unknown no_files pre) "date_filter.sh"
      = Some ("#!/bin/sh" ++ nl)%string /\
    (forall argv, In argv (spawned pre) -> is_filter_branch argv = false) /\
    spawned post = [].
Proof.
  apply (C7_nothing_resolves env_unknown no_files).
  intros c Hin. vm_compute in Hin.
  repeat (destruct Hin as [<-|Hin]; [reflexivity|]). destruct Hin.
Defined.

(** ** Reruns (C8) *)

(** C8: two runs in which every entry of the commit list resolves alike
    (to the same identifier, or in neither run) build the same dictionary
    and leave the same filter text, whatever else differs between the
    two environments and the two initial file systems. *)
Theorem C8_same_resolution_same_filter :
  forall E1 E2 init1 init2,
    (forall c, In c commits -> resolves E1 (fst c) = resolves E2 (fst c)) ->
    mapping_of commits E1 = mapping_of commits E2 /\
    written filter_name (trace (main E1)) = written filter_name (trace (main E2)) /\
    filter_text commits E1 init1 = filter_text commits E2 init2.
Proof.
  intros E1 E2 init1 init2 H.
  assert (Hm : mapping_of commits E1 = mapping_of commits E2).
  { rewrite !mapping_of_after. now apply mapping_after_agree. }
  repeat split.
  - exact Hm.
  - unfold main. now rewrite !written_program, Hm.
  - now rewrite !filter_text_program, Hm.
Qed.

(** C8 for [env_shared] and [env_shared_elsewhere]. *)
Lemma C8_same_resolution_same_filter_witness :
  mapping_of commits env_shared = mapping_of commits env_shared_elsewhere /\
  written filter_name (trace (main env_shared)) =
    written filter_name (trace (main env_shared_elsewhere)) /\
  filter_text commits env_shared no_files =
    filter_text commits env_shared_elsewhere no_files.
Proof.
  apply (C8_same_resolution_same_filter env_shared env_shared_elsewhere no_files no_files).
  intros c Hin. vm_compute in Hin.
  repeat (destruct Hin as [<-|Hin]; [reflexivity|]). destruct Hin.
Defined.

(** ** Written before used (C9) *)

(** C9: at every step of a run that uses the filter (the [chmod] on it
    and the start of the rewrite), the file has been opened and closed
    before, no writer is left open on it, every string the run ever
    writes to it has been written before, and what is on disk is the
    concatenation of those strings, which is also the text the file has
    when the run is over. *)
Theorem C9_filter_complete_before_use :
  forall E init pre e post,
    trace (main E) = pre ++ e :: post ->
    uses_filter e = true ->
    In (Open filter_name) pre /\
    In (Close filter_name) pre /\
    closed (fs_after E init pre) filter_name = true /\
    written filter_name pre = written filter_name (trace (main E)) /\
    contents (fs_after E init pre) filter_name =
      Some (String.concat EmptyString (written filter_name (trace (main E)))) /\
    contents (fs_after E init pre) filter_name = filter_text commits E init.
Proof.
  intros E init pre e post Heq He.
  unfold main in *. rewrite filter_text_program, written_program.
  fold (filter_body (mapping_of commits E)).
  destruct (fs_after_head E init commits) as [Hd Hp].
  destruct (use_positions E commits pre e post Heq He) as [->| ->].
  - repeat split.
    + apply Open_in_head.
    + apply Close_in_head.
    + unfold closed. now rewrite Hp.
    + apply written_head.
    + unfold contents. now rewrite Hd.
    + unfold contents. now rewrite Hd.
  - destruct (fs_after_chmod E _ 493%Z _ [Print "Running git filter-branch..."]
                Hd Hp eq_refl) as [Hd' Hp'].
    rewrite <- fs_after_app in Hd', Hp'. repeat split.
    + apply in_or_app. left. apply Open_in_head.
    + apply in_or_app. left. apply Close_in_head.
    + unfold closed. now rewrite Hp'.
    + rewrite written_app, written_head. cbn. now rewrite app_nil_r.
    + unfold contents. now rewrite Hd'.
    + unfold contents. now rewrite Hd'.
Qed.

(** C9 at [env_shared], for the step that starts the rewrite, the 37th
    action of the run. *)
Lemma C9_filter_complete_before_use_witness :
  In (Open filter_name) (firstn 36 (trace (main env_shared))) /\
  In (Close filter_name) (firstn 36 (trace (main env_shared))) /\
  closed (fs_after env_shared no_files (firstn 36 (trace (main env_shared))))
    filter_name = true /\
  written filter_name (firstn 36 (trace (main env_shared))) =
    written filter_name (trace (main env_shared)) /\
  contents (fs_after env_shared no_files (firstn 36 (trace (main env_shared))))
    filter_name =
    Some (String.concat EmptyString (written filter_name (trace (main env_shared)))) /\
  contents (fs_after env_shared no_files (firstn 36 (trace (main env_shared))))
    filter_name = filter_text commits env_shared no_files.
Proof.
  apply (C9_filter_complete_before_use env_shared no_files
           (firstn 36 (trace (main env_shared)))
           (Spawn (rewrite_cmd env_shared))
           [Print "Done!"]).
  - reflexivity.
  - reflexivity.
Defined.

(** ** Identifiers resolved twice (C10) *)

(** C10: when two entries of the commit list resolve to the same
    identifier, processing the later one replaces the date stored for
    that identifier (and the replacement stands unless a still later
    entry resolves to it again), the filter holds exactly one block
    guarded by that identifier, and the blocks follow the order in which
    the identifiers were first resolved. *)
Theorem C10_later_entry_overwrites :
  forall E l1 s1 d1 l2 s2 d2 l3 full,
    commits = l1 ++ (s1, d1) :: l2 ++ (s2, d2) :: l3 ->
    resolves E s1 = Some full ->
    resolves E s2 = Some full ->
    let upto := l1 ++ (s1, d1) :: l2 ++ [(s2, d2)] in
    let ws := written filter_name (trace (main E)) in
    Py.getitem (mapping_of upto E) full = Some d2 /\
    outcome (resolve_loop commits Py.empty E) =
      outcome (resolve_loop l3 (mapping_of upto E) E) /\
    ((forall c, In c l3 -> resolves E (fst c) <> Some full) ->
     Py.getitem (mapping_of commits E) full = Some d2) /\
    count_occ string_dec ws (guard_line full) = 1 /\
    (exists date, one_block ws full date) /\
    ws = shebang :: blocks (Py.items (mapping_of commits E)) /\
    Py.keys (mapping_of commits E) = uniq (resolved_ids E commits).
Proof.
  intros E l1 s1 d1 l2 s2 d2 l3 full Hc Hr1 Hr2 upto ws.
  assert (Hsplit : commits = upto ++ l3).
  { unfold upto. rewrite Hc, <- !app_assoc. cbn [app].
    now rewrite <- app_assoc. }
  assert (Hone : exists date, one_block ws full date).
  { destruct (last_resolving_exists E full commits) as [date Hlast].
    - exists (s1, d1). split; [|exact Hr1].
      rewrite Hc. apply in_or_app. right. now left.
    - exists date. now apply last_resolving_one_block. }
  repeat split.
  - unfold upto. rewrite mapping_of_after.
    change (l1 ++ (s1, d1) :: l2 ++ [(s2, d2)])
      with (l1 ++ ((s1, d1) :: l2) ++ [(s2, d2)]).
    rewrite app_assoc.
    apply getitem_mapping_after_last; [exact Hr2 | intros c []].
  - rewrite Hsplit. apply resolve_loop_app.
  - intros Hl3. apply last_resolving_getitem.
    exists (l1 ++ (s1, d1) :: l2), s2, l3. repeat split; [|exact Hr2|exact Hl3].
    rewrite Hc, <- app_assoc. reflexivity.
  - destruct Hone as [date [Hcount _]]. exact Hcount.
  - exact Hone.
  - apply written_program.
  - apply keys_mapping_of.
Qed.

(** C10 at [env_shared], for the entries [afadbad] and [32cac5d]. *)
Lemma C10_later_entry_overwrites_witness :
  let upto := [("afadbad", "2025-11-19T10:00:00"); ("32cac5d", "2025-11-19T14:00:00")] in
  let ws := written filter_name (trace (main env_shared)) in
  Py.getitem (mapping_of upto env_shared) sample_id = Some "2025-11-19T14:00:00" /\
  outcome (resolve_loop commits Py.empty env_shared) =
    outcome (resolve_loop (tl (tl commits)) (mapping_of upto env_shared) env_shared) /\
  ((forall c, In c (tl (tl commits)) ->
      resolves env_shared (fst c) <> Some sample_id) ->
   Py.getitem (mapping_of commits env_shared) sample_id = Some "2025-11-19T14:00:00") /\
  count_occ string_dec ws (guard_line sample_id) = 1 /\
  (exists date, one_block ws sample_id date) /\
  ws = shebang :: blocks (Py.items (mapping_of commits env_shared)) /\
  Py.keys (mapping_of commits env_shared) = uniq (resolved_ids env_shared commits).
Proof.
  apply (C10_later_entry_overwrites env_shared
           [] "afadbad" "2025-11-19T10:00:00"
           [] "32cac5d" "2025-11-19T14:00:00" (tl (tl commits)) sample_id).
  - reflexivity.
  - reflexivity.
  - reflexivity.
Defined.

(** * Further properties of the script *)

(** ** What [strip] removes *)

Lemma lstrip_split s :
  exists l, s = (l ++ Py.lstrip s)%string /\ all_space l = true.
Proof.
  induction s as [|c r (l & Hl & Hs)]; simpl.
  - now exists EmptyString.
  - destruct (Py.isspace c) eqn:Hc.
    + exists (String c l). simpl. rewrite Hc, Hs. split; [now f_equal | reflexivity].
    + now exists EmptyString.
Qed.

Lemma lstrip_no_leading_space s : starts_with_space (Py.lstrip s) = false.
Proof.
  induction s as [|c r IH]; simpl; [reflexivity|].
  destruct (Py.isspace c) eqn:Hc; [exact IH | simpl; exact Hc].
Qed.

Lemma rstrip_split s :
  exists r, s = (Py.rstrip s ++ r)%string /\ all_space r = true.
Proof.
  induction s as [|c t (r & Ht & Hs)]; simpl.
  - now exists EmptyString.
  - destruct (Py.rstrip t) as [|c' t'] eqn:Hr.
    + destruct (Py.isspace c) eqn:Hc.
      * exists (String c t). simpl in Ht. subst r. simpl. now rewrite Hc, Hs.
      * exists r. simpl. now rewrite Ht at 1.
    + exists r. simpl. now rewrite Ht at 1.
Qed.

Lemma rstrip_no_trailing_space s : ends_with_space (Py.rstrip s) = false.
Proof.
  induction s as [|c t IH]; simpl; [reflexivity|].
  destruct (Py.rstrip t) as [|c' t'] eqn:Hr.
  - destruct (Py.isspace c) eqn:Hc; simpl; [reflexivity | exact Hc].
  - exact IH.
Qed.

Lemma rstrip_keeps_start s :
  starts_with_space s = false -> starts_with_space (Py.rstrip s) = false.
Proof.
  destruct s as [|c t]; simpl; [reflexivity|]. intros Hc.
  destruct (Py.rstrip t); [rewrite Hc|]; simpl; exact Hc.
Qed.

Lemma lstrip_fixed s : starts_with_space s = false -> Py.lstrip s = s.
Proof. destruct s as [|c t]; simpl; [reflexivity|]. now intros ->. Qed.

Lemma rstrip_fixed s : ends_with_space s = false -> Py.rstrip s = s.
Proof.
  induction s as [|c t IH]; [reflexivity|].
  destruct t as [|c' t'].
  - simpl. now intros ->.
  - intros H. change (ends_with_space (String c' t') = false) in H.
    specialize (IH H). cbn [Py.rstrip]. cbn [Py.rstrip] in IH. rewrite IH.
    reflexivity.
Qed.

Lemma strip_split s :
  exists l r,
    s = (l ++ Py.strip s ++ r)%string /\ all_space l = true /\ all_space r = true.
Proof.
  unfold Py.strip.
  destruct (lstrip_split s) as (l & Hl & Hls).
  destruct (rstrip_split (Py.lstrip s)) as (r & Hr & Hrs).
  exists l, r. repeat split; [|assumption|assumption].
  rewrite <- Hr. exact Hl.
Qed.

Lemma strip_ends s :
  starts_with_space (Py.strip s) = false /\
  ends_with_space (Py.strip s) = false /\
  Py.strip (Py.strip s) = Py.strip s.
Proof.
  unfold Py.strip.
  pose proof (rstrip_keeps_start _ (lstrip_no_leading_space s)) as Hstart.
  pose proof (rstrip_no_trailing_space (Py.lstrip s)) as Hend.
  repeat split; [exact Hstart | exact Hend |].
  rewrite (lstrip_fixed _ Hstart). now apply rstrip_fixed.
Qed.

Lemma ascii_only_app a b :
  ascii_only (a ++ b) = ascii_only a && ascii_only b.
Proof.
  induction a as [|c a IH]; simpl; [reflexivity|].
  now rewrite IH, andb_assoc.
Qed.

(** X1: on a string of ASCII characters (what [git rev-parse] prints),
    [strip] cuts white space off the two ends and nothing else: the
    string is ASCII white space, then its stripped form, then ASCII white
    space; the stripped form is ASCII again, neither starts nor ends with
    white space, and stripping it again changes nothing. *)
Theorem X1_strip_trims_both_ends :
  forall s,
    ascii_only s = true ->
    (exists l r,
        s = (l ++ Py.strip s ++ r)%string /\
        all_space l = true /\ all_space r = true /\
        ascii_only l = true /\ ascii_only r = true) /\
    ascii_only (Py.strip s) = true /\
    starts_with_space (Py.strip s) = false /\
    ends_with_space (Py.strip s) = false /\
    Py.strip (Py.strip s) = Py.strip s.
Proof.
  intros s Hs.
  destruct (strip_split s) as (l & r & Heq & Hl & Hr).
  assert (Hparts : ascii_only l = true /\ ascii_only (Py.strip s) = true
                   /\ ascii_only r = true).
  { rewrite Heq, !ascii_only_app in Hs.
    apply andb_true_iff in Hs as [H1 Hs]. apply andb_true_iff in Hs as [H2 H3].
    now repeat split. }
  destruct Hparts as (Hal & Has & Har).
  split; [exists l, r; now repeat split|].
  split; [exact Has | apply strip_ends].
Qed.

(** X1 on the output of [git rev-parse] with surrounding white space. *)
Lemma X1_strip_trims_both_ends_witness :
  (exists l r,
      ("  afadbad0 " ++ nl)%string
        = (l ++ Py.strip ("  afadbad0 " ++ nl) ++ r)%string /\
      all_space l = true /\ all_space r = true /\
      ascii_only l = true /\ ascii_only r = true) /\
  ascii_only (Py.strip ("  afadbad0 " ++ nl)) = true /\
  starts_with_space (Py.strip ("  afadbad0 " ++ nl)) = false /\
  ends_with_space (Py.strip ("  afadbad0 " ++ nl)) = false /\
  Py.strip (Py.strip ("  afadbad0 " ++ nl)) = Py.strip ("  afadbad0 " ++ nl).
Proof.
  apply (X1_strip_trims_both_ends ("  afadbad0 " ++ nl)). reflexivity.
Defined.

Lemma resolves_stripped E short full :
  resolves E short = Some full -> full = Py.strip (stdout (run_process E (rev_parse short))).
Proof.
  unfold resolves. destruct (_ =? _)%Z; [now intros [= <-] | discriminate].
Qed.

Lemma guard_written_key E cs full :
  In (guard_line full) (written filter_name (trace (program cs E))) ->
  In full (Py.keys (mapping_of cs E)).
Proof.
  intros H. apply (count_occ_In string_dec) in H.
  rewrite written_program in H.
  rewrite count_occ_cons_neq in H
    by (intros H'; symmetry in H'; revert H'; apply guard_not_shebang).
  rewrite count_guard_blocks in H.
  now apply (count_occ_In string_dec).
Qed.

Lemma key_resolved E cs full :
  In full (Py.keys (mapping_of cs E)) ->
  exists s d, In (s, d) cs /\ resolves E s = Some full.
Proof.
  intros H. apply in_map_iff in H as ([k d] & Hk & Hin). cbn in Hk. subst k.
  rewrite mapping_of_after in Hin.
  apply mapping_after_origin in Hin as [[]|(s & Hs & Hr)].
  now exists s, d.
Qed.

(** X2: an identifier the filter compares [GIT_COMMIT] with never starts
    or ends with white space (the line feed that ends the output of
    [git rev-parse] included), whatever the commit list and whatever the
    processes print: it is a fixed point of [strip]. *)
Theorem X2_guards_compare_stripped_ids :
  forall E cs full,
    In (guard_line full) (written filter_name (trace (program cs E))) ->
    starts_with_space full = false /\
    ends_with_space full = false /\
    Py.strip full = full.
Proof.
  intros E cs full H.
  apply guard_written_key, key_resolved in H as (s & d & _ & Hr).
  apply resolves_stripped in Hr. subst full. apply strip_ends.
Qed.

(** X2 at [env_shared], for the guard of [sample_id]. *)
Lemma X2_guards_compare_stripped_ids_witness :
  starts_with_space sample_id = false /\
  ends_with_space sample_id = false /\
  Py.strip sample_id = sample_id.
Proof.
  apply (X2_guards_compare_stripped_ids env_shared commits sample_id).
  vm_compute. right. left. reflexivity.
Defined.

(** ** What the script prints *)

Lemma console_actions_app a b :
  console_actions (a ++ b) = console_actions a ++ console_actions b.
Proof. apply filter_app. Qed.

Lemma console_actions_writes p ws : console_actions (map (Write p) ws) = [].
Proof. induction ws as [|w ws IH]; [reflexivity | exact IH]. Qed.

Lemma console_actions_resolve E cs :
  console_actions (flat_map (resolve_events E) cs) = flat_map (resolve_events E) cs.
Proof.
  induction cs as [|c cs IH]; [reflexivity|].
  cbn [flat_map resolve_events app console_actions filter path_of].
  fold (console_actions (flat_map (resolve_events E) cs)). now rewrite IH.
Qed.

(** X3: for any commit list, the calls of [print] the script makes and
    the processes it starts are, in order: [print] of [Resolving
    hashes...]; then for each entry in list order its [git rev-parse]
    followed by exactly one [print] ([short -> full -> date] with the
    stripped identifier when the entry resolves, [Could not resolve
    short] when it does not); then [print] of [Running git
    filter-branch...], the rewrite, and a last [print] of [Done!]
    exactly when the rewrite exits with status zero. *)
Theorem X3_print_calls_in_order :
  forall cs E,
    console_actions (trace (program cs E)) =
      Print "Resolving hashes..."
      :: flat_map (fun c =>
                     [Spawn ["git"; "rev-parse"; fst c];
                      Print (match resolves E (fst c) with
                             | Some full =>
                                 (fst c ++ " -> " ++ full ++ " -> " ++ snd c)%string
                             | None => ("Could not resolve " ++ fst c)%string
                             end)]) cs
      ++ [Print "Running git filter-branch...";
          Spawn ["git"; "filter-branch"; "--env-filter"; abspath E "date_filter.sh";
                 "--force"; "--"; "--all"]]
      ++ (if (returncode
                (run_process E
                   ["git"; "filter-branch"; "--env-filter";
                    abspath E "date_filter.sh"; "--force"; "--"; "--all"]) =? 0)%Z
          then [Print "Done!"] else []) /\
    printed (trace (program cs E)) =
      "Resolving hashes..."
      :: map (fun c =>
                match resolves E (fst c) with
                | Some full => (fst c ++ " -> " ++ full ++ " -> " ++ snd c)%string
                | None => ("Could not resolve " ++ fst c)%string
                end) cs
      ++ "Running git filter-branch..."
      :: (if (returncode
                (run_process E
                   ["git"; "filter-branch"; "--env-filter";
                    abspath E "date_filter.sh"; "--force"; "--"; "--all"]) =? 0)%Z
          then ["Done!"] else []).
Proof.
  intros cs E. split.
  - rewrite program_run. unfold trace, tail_events. cbn [fst].
    change (Print "Resolving hashes..." :: ?l)
      with ([Print "Resolving hashes..."] ++ l).
    rewrite console_actions_app, console_actions_app, console_actions_resolve.
    change (Open filter_name :: ?l) with ([Open filter_name] ++ l).
    rewrite console_actions_app, console_actions_app, console_actions_writes.
    rewrite console_actions_app.
    change (rewrite_cmd E)
      with ["git"; "filter-branch"; "--env-filter"; abspath E "date_filter.sh";
            "--force"; "--"; "--all"].
    destruct (returncode _ =? 0)%Z; reflexivity.
  - rewrite printed_program. reflexivity.
Qed.

(** ** Which blocks the filter has *)

Lemma resolved_key E cs full :
  existsb (resolves_to E full) cs = true -> In full (Py.keys (mapping_of cs E)).
Proof.
  intros H. apply existsb_exists in H as (c & Hin & Hr).
  apply resolves_to_true in Hr.
  destruct (last_resolving_exists E full cs) as [date Hlast]; [now exists c|].
  apply last_resolving_getitem, PyFacts.getitem_In in Hlast.
  change full with (fst (full, date)). now apply in_map.
Qed.

(** X4: for any commit list and any identifier, the guard line of that
    identifier is written once when some entry resolves to it and not at
    all otherwise: the filter never has two blocks for one commit, and
    never a block for a commit that no entry resolved to. *)
Theorem X4_guard_written_once_or_never :
  forall cs E full,
    count_occ string_dec (written filter_name (trace (program cs E)))
      (guard_line full) =
    if existsb (resolves_to E full) cs then 1 else 0.
Proof.
  intros cs E full. rewrite written_program.
  rewrite count_occ_cons_neq
    by (intros H'; symmetry in H'; revert H'; apply guard_not_shebang).
  rewrite count_guard_blocks. fold (Py.keys (mapping_of cs E)).
  destruct (existsb (resolves_to E full) cs) eqn:Hex.
  - apply resolved_key, (count_occ_In string_dec) in Hex.
    pose proof (proj1 (NoDup_count_occ string_dec _)
                  (NoDup_keys_mapping_of cs E) full). lia.
  - apply count_occ_not_In. intros Hin.
    apply key_resolved in Hin as (s & d & Hin & Hr).
    assert (existsb (resolves_to E full) cs = true); [|congruence].
    apply existsb_exists. exists (s, d). split; [exact Hin|].
    now apply resolves_to_true.
Qed.

(** ** How the dictionary grows *)

Lemma keys_mapping_after_grow E post : forall m,
  exists more, Py.keys (mapping_after E post m) = Py.keys m ++ more.
Proof.
  induction post as [|c post IH]; intros m; simpl.
  - exists []. now rewrite app_nil_r.
  - destruct (IH (step_mapping E m c)) as [more ->].
    unfold step_mapping. destruct (resolves E (fst c)) as [f|].
    + rewrite PyFacts.keys_setitem.
      destruct (in_dec string_dec f (Py.keys m)).
      * now exists more.
      * exists (f :: more). now rewrite <- app_assoc.
    + now exists more.
Qed.

(** X5: the loop only ever adds keys at the end of the dictionary: the
    keys after a part of the commit list are a prefix of the keys after
    the whole list, so an identifier keeps the place in the filter it got
    when it was first resolved, and none is ever dropped. *)
Theorem X5_keys_only_grow :
  forall E pre post,
    exists more,
      Py.keys (mapping_of (pre ++ post) E) = Py.keys (mapping_of pre E) ++ more /\
      length (Py.keys (mapping_of pre E)) <= length (Py.keys (mapping_of (pre ++ post) E)).
Proof.
  intros E pre post. rewrite !mapping_of_after, mapping_after_app.
  destruct (keys_mapping_after_grow E post (mapping_after E pre Py.empty))
    as [more Hm].
  exists more. split; [exact Hm|]. rewrite Hm, length_app. lia.
Qed.

(** ** Which file operations a run performs *)

Lemma trace_paths cs E e :
  In e (trace (program cs E)) -> path_of e = None \/ path_of e = Some filter_name.
Proof.
  rewrite trace_shape. intros H. apply in_app_or in H as [H|H].
  - unfold head_events in H. destruct H as [<-|H]; [now left|].
    apply in_app_or in H as [H|H].
    + apply in_flat_map in H as (c & _ & [<-|[<-|[]]]); now left.
    + destruct H as [<-|H]; [now right|].
      apply in_app_or in H as [H|[<-|[]]]; [|now right].
      apply in_map_iff in H as (w & <- & _). now right.
  - apply in_app_or in H as [H|H].
    + destruct H as [<-|[<-|[<-|[]]]]; auto.
    + unfold done_events in H. destruct (_ =? _)%Z; [|destruct H].
      destruct H as [<-|[]]. now left.
Qed.

Lemma file_actions_app a b :
  file_actions (a ++ b) = file_actions a ++ file_actions b.
Proof. apply filter_app. Qed.

Lemma file_actions_writes p ws :
  file_actions (map (Write p) ws) = map (Write p) ws.
Proof.
  induction ws as [|w ws IH]; [reflexivity|].
  cbn [map file_actions filter path_of]. fold (file_actions (map (Write p) ws)).
  now rewrite IH.
Qed.

Lemma file_actions_resolve E cs : file_actions (flat_map (resolve_events E) cs) = [].
Proof. induction cs as [|c cs IH]; [reflexivity | exact IH]. Qed.

(** X6: for any commit list and whatever the status of the rewrite, the
    file operations the script itself performs are, in this order: open
    [date_filter.sh] for writing, write the [#!/bin/sh] line and the
    blocks of the dictionary, close the file, change its mode to [0o755].
    Every file operation names [date_filter.sh], and none comes after
    the rewrite is started. *)
Theorem X6_file_operations_of_a_run :
  forall cs E,
    file_actions (trace (program cs E)) =
      Open "date_filter.sh"
      :: map (Write "date_filter.sh")
           (("#!/bin/sh" ++ nl)%string :: blocks (Py.items (mapping_of cs E)))
      ++ [Close "date_filter.sh"; Chmod "date_filter.sh" 493%Z] /\
    (forall e, In e (trace (program cs E)) ->
       path_of e = None \/ path_of e = Some "date_filter.sh") /\
    exists pre post,
      trace (program cs E) =
        pre ++ Spawn ["git"; "filter-branch"; "--env-filter";
                      abspath E "date_filter.sh"; "--force"; "--"; "--all"]
            :: post /\
      file_actions pre = file_actions (trace (program cs E)) /\
      file_actions post = [].
Proof.
  intros cs E.
  assert (Hhead : file_actions (head_events E cs) =
                  Open filter_name
                  :: map (Write filter_name) (shebang :: blocks (mapping_of cs E))
                  ++ [Close filter_name]).
  { unfold head_events.
    change (Print "Resolving hashes..." :: ?l)
      with ([Print "Resolving hashes..."] ++ l).
    rewrite file_actions_app, file_actions_app, file_actions_resolve.
    change (Open filter_name :: ?l) with ([Open filter_name] ++ l).
    rewrite file_actions_app, file_actions_app, file_actions_writes. reflexivity. }
  assert (Hdone : file_actions (done_events E) = []).
  { unfold done_events. now destruct (_ =? _)%Z. }
  assert (Hall : file_actions (trace (program cs E)) =
                 Open filter_name
                 :: map (Write filter_name) (shebang :: blocks (mapping_of cs E))
                 ++ [Close filter_name; Chmod filter_name 493%Z]).
  { rewrite trace_shape, file_actions_app, file_actions_app, Hhead, Hdone.
    cbn [file_actions filter path_of app]. rewrite ?app_nil_r.
    cbn [app]. f_equal. rewrite <- app_assoc. reflexivity. }
  split; [exact Hall|]. split; [apply trace_paths|].
  exists (head_events E cs
            ++ [Chmod filter_name 493%Z; Print "Running git filter-branch..."]),
         (done_events E).
  repeat split.
  - rewrite trace_shape, <- app_assoc. reflexivity.
  - rewrite Hall, file_actions_app, Hhead.
    cbn [file_actions filter path_of app]. f_equal. rewrite <- app_assoc. reflexivity.
  - exact Hdone.
Qed.

Example sample_fs_after_run :
  contents sample_fs "date_filter.sh" = Some "#!/bin/sh" /\
  mode sample_fs "date_filter.sh" = Some 420%Z /\
  mode (fs_after env_shared sample_fs (trace (main env_shared))) "date_filter.sh"
    = Some 493%Z.
Proof. repeat split. Qed.

(** ** Resolution comes before any file operation *)

Lemma split_in_first (A B pre : list event) e post :
  A ++ B = pre ++ e :: post -> ~ In e B -> exists A2, A = pre ++ e :: A2.
Proof.
  revert pre. induction A as [|a A IH]; intros pre Heq HB.
  - exfalso. apply HB. cbn in Heq. rewrite Heq. apply in_or_app. right. now left.
  - destruct pre as [|x pre]; cbn in Heq.
    + injection Heq as -> _. now exists A.
    + injection Heq as -> Heq. destruct (IH pre Heq HB) as [A2 ->]. now exists A2.
Qed.

Lemma resolve_events_inert E cs : forallb inert (flat_map (resolve_events E) cs) = true.
Proof. induction cs as [|c cs IH]; [reflexivity | exact IH]. Qed.

Lemma rev_parse_not_in_tail E m s : ~ In (Spawn (rev_parse s)) (tail_events E m).
Proof.
  unfold tail_events. intros [H|H]; [discriminate H|].
  apply in_app_or in H as [H|H].
  - apply in_map_iff in H as (w & Hw & _). discriminate Hw.
  - apply in_app_or in H as [H|H].
    + repeat (destruct H as [H|H]; [discriminate H|]). destruct H.
    + destruct (_ =? _)%Z; repeat (destruct H as [H|H]; [discriminate H|]); destruct H.
Qed.

(** X7: whenever a [git rev-parse] is started, the run has done nothing
    but print and start processes: no file has been opened, written,
    closed or had its mode changed, so the file system is still the one
    the run started from.  The filter is only touched once every entry
    of the list has been tried. *)
Theorem X7_no_file_action_before_resolution_ends :
  forall E init cs pre s post,
    trace (program cs E) = pre ++ Spawn (rev_parse s) :: post ->
    forallb inert pre = true /\
    (forall e, In e pre -> path_of e = None) /\
    written filter_name pre = [] /\
    fs_after E init pre = init.
Proof.
  intros E init cs pre s post Heq.
  rewrite program_run in Heq. unfold trace in Heq. cbn [fst] in Heq.
  change (Print "Resolving hashes..." :: ?l ++ ?t)
    with ((Print "Resolving hashes..." :: l) ++ t) in Heq.
  apply split_in_first in Heq as [A2 HA]; [|apply rev_parse_not_in_tail].
  assert (Hin : forallb inert pre = true).
  { assert (H : forallb inert (Print "Resolving hashes..."
                                 :: flat_map (resolve_events E) cs) = true)
      by apply resolve_events_inert.
    rewrite HA, forallb_app in H. now apply andb_true_iff in H as [H _]. }
  assert (Hpaths : forall e, In e pre -> path_of e = None).
  { intros e He. rewrite forallb_forall in Hin. specialize (Hin e He).
    now destruct e. }
  repeat split; [exact Hin | exact Hpaths | | now apply fs_after_inert].
  clear -Hpaths. induction pre as [|e pre IH]; [reflexivity|].
  cbn [written flat_map]. fold (written filter_name pre).
  rewrite IH by (intros e' He'; apply Hpaths; now right).
  specialize (Hpaths e (or_introl eq_refl)). now destruct e.
Qed.

(** X7 at [env_shared], for the last [git rev-parse] of the run. *)
Lemma X7_no_file_action_before_resolution_ends_witness :
  forallb inert (firstn 21 (trace (program commits env_shared))) = true /\
  (forall e, In e (firstn 21 (trace (program commits env_shared))) ->
     path_of e = None) /\
  written filter_name (firstn 21 (trace (program commits env_shared))) = [] /\
  fs_after env_shared sample_fs (firstn 21 (trace (program commits env_shared)))
    = sample_fs.
Proof.
  apply (X7_no_file_action_before_resolution_ends env_shared sample_fs commits
           (firstn 21 (trace (program commits env_shared))) "74bc4e7"
           (skipn 22 (trace (program commits env_shared)))).
  reflexivity.
Defined.

(** ** The filter, line by line *)

Lemma newline_free_app a b :
  newline_free (a ++ b) = newline_free a && newline_free b.
Proof.
  induction a as [|c a IH]; simpl; [reflexivity|].
  now rewrite IH, andb_assoc.
Qed.

Lemma lines_terminated l rest :
  newline_free l = true ->
  lines (l ++ nl ++ rest) = (l ++ nl)%string :: lines rest.
Proof.
  induction l as [|c l IH]; intros H.
  - reflexivity.
  - simpl in H. apply andb_true_iff in H as [Hc Hl]. apply negb_true_iff in Hc.
    cbn [append lines]. rewrite Hc, (IH Hl). reflexivity.
Qed.

Lemma lines_concat ws :
  Forall one_line ws -> lines (String.concat EmptyString ws) = ws.
Proof.
  induction 1 as [|w ws (l & -> & Hl) _ IH]; [reflexivity|].
  rewrite concat_cons, append_assoc, lines_terminated by assumption.
  now rewrite IH.
Qed.

Lemma one_line_shebang : one_line shebang.
Proof. exists "#!/bin/sh". now split. Qed.

Lemma one_line_fi : one_line fi_line.
Proof. exists "fi". now split. Qed.

Lemma one_line_guard f : newline_free f = true -> one_line (guard_line f).
Proof.
  intros H.
  exists ("if [ " ++ dq ++ "$GIT_COMMIT" ++ dq ++ " = " ++ dq ++ f ++ dq ++ " ]; then")%string.
  split.
  - unfold guard_line. cbn. now rewrite append_assoc.
  - cbn. rewrite newline_free_app, H. reflexivity.
Qed.

Lemma one_line_author d : newline_free d = true -> one_line (author_line d).
Proof.
  intros H. exists ("    export GIT_AUTHOR_DATE=" ++ dq ++ d ++ dq)%string. split.
  - unfold author_line. cbn. now rewrite append_assoc.
  - cbn. rewrite newline_free_app, H. reflexivity.
Qed.

Lemma one_line_committer d : newline_free d = true -> one_line (committer_line d).
Proof.
  intros H. exists ("    export GIT_COMMITTER_DATE=" ++ dq ++ d ++ dq)%string. split.
  - unfold committer_line. cbn. now rewrite append_assoc.
  - cbn. rewrite newline_free_app, H. reflexivity.
Qed.

Lemma one_line_blocks its :
  (forall f d, In (f, d) its -> newline_free f = true /\ newline_free d = true) ->
  Forall one_line (blocks its).
Proof.
  induction its as [|[f d] its IH]; intros H; [constructor|].
  destruct (H f d (or_introl eq_refl)) as [Hf Hd].
  cbn [blocks flat_map fst snd block app]. fold (blocks its).
  repeat constructor;
    [now apply one_line_guard | now apply one_line_author
     | now apply one_line_committer | apply one_line_fi |].
  apply IH. intros f' d' Hin. apply H. now right.
Qed.

Lemma length_blocks its : length (blocks its) = 4 * length its.
Proof.
  induction its as [|[f d] its IH]; [reflexivity|].
  cbn [blocks flat_map fst snd block app length]. fold (blocks its). lia.
Qed.

(** X8: when the identifiers the entries resolve to and the timestamps of
    the list hold no line feed, the lines of the file on disk are exactly
    the strings the script wrote, one line each: the [#!/bin/sh] line and
    then four lines per block, one block per distinct identifier
    resolved. *)
Theorem X8_filter_lines_are_the_writes :
  forall E init cs,
    (forall c f, In c cs -> resolves E (fst c) = Some f -> newline_free f = true) ->
    (forall c, In c cs -> newline_free (snd c) = true) ->
    exists text,
      filter_text cs E init = Some text /\
      lines text = written filter_name (trace (program cs E)) /\
      lines text = shebang :: blocks (Py.items (mapping_of cs E)) /\
      length (lines text) = 1 + 4 * length (uniq (resolved_ids E cs)).
Proof.
  intros E init cs Hids Hdates.
  exists (filter_body (mapping_of cs E)).
  assert (Hlines : lines (filter_body (mapping_of cs E))
                   = shebang :: blocks (mapping_of cs E)).
  { unfold filter_body. apply lines_concat. constructor; [apply one_line_shebang|].
    apply one_line_blocks. intros f d Hin.
    rewrite mapping_of_after in Hin.
    apply mapping_after_origin in Hin as [[]|(s & Hs & Hr)].
    split; [exact (Hids (s, d) f Hs Hr) | exact (Hdates (s, d) Hs)]. }
  repeat split.
  - apply filter_text_program.
  - now rewrite written_program.
  - exact Hlines.
  - rewrite Hlines. cbn [length]. rewrite length_blocks.
    rewrite <- keys_mapping_of. unfold Py.keys. now rewrite length_map.
Qed.

(** X8 at [env_shared], starting from [sample_fs]. *)
Lemma X8_filter_lines_are_the_writes_witness :
  exists text,
    filter_text commits env_shared sample_fs = Some text /\
    lines text = written filter_name (trace (program commits env_shared)) /\
    lines text = shebang :: blocks (Py.items (mapping_of commits env_shared)) /\
    length (lines text) = 1 + 4 * length (uniq (resolved_ids env_shared commits)).
Proof.
  apply (X8_filter_lines_are_the_writes env_shared sample_fs commits).
  - intros c f Hin. vm_compute in Hin.
    repeat (destruct Hin as [<-|Hin];
            [vm_compute; intros Hr;
             first [discriminate Hr | injection Hr as <-; reflexivity]|]).
    destruct Hin.
  - intros c Hin. vm_compute in Hin.
    repeat (destruct Hin as [<-|Hin]; [reflexivity|]). destruct Hin.
Defined.

(** ** The filter when no two entries share an identifier *)

Lemma setitem_fresh d k v :
  ~ In k (Py.keys d) -> Py.setitem d k v = d ++ [(k, v)].
Proof.
  induction d as [|[a b] d IH]; intros H; [reflexivity|].
  cbn [Py.setitem]. destruct (String.eqb_spec a k) as [->|Hne].
  - exfalso. apply H. now left.
  - cbn [app]. f_equal. apply IH. intros Hin. apply H. now right.
Qed.

Lemma keys_resolved_items E cs : Py.keys (resolved_items E cs) = resolved_ids E cs.
Proof.
  induction cs as [|c cs IH]; [reflexivity|].
  unfold resolved_items, resolved_ids, Py.keys in *. cbn [flat_map].
  rewrite map_app, IH. now destruct (resolves E (fst c)).
Qed.

Lemma mapping_after_distinct E cs : forall m,
  NoDup (Py.keys m ++ resolved_ids E cs) ->
  mapping_after E cs m = m ++ resolved_items E cs.
Proof.
  induction cs as [|c cs IH]; intros m H.
  - cbn. now rewrite app_nil_r.
  - cbn [mapping_after fold_left]. fold (mapping_after E cs (step_mapping E m c)).
    unfold resolved_ids, resolved_items in *. cbn [flat_map] in *.
    unfold step_mapping.
    destruct (resolves E (fst c)) as [f|]; cbn [app] in *.
    + assert (Hf : ~ In f (Py.keys m)).
      { intros Hin. apply NoDup_remove_2 in H. apply H.
        apply in_or_app. now left. }
      rewrite (setitem_fresh m f (snd c) Hf), IH.
      * now rewrite <- app_assoc.
      * unfold Py.keys. rewrite map_app, <- app_assoc. exact H.
    + now apply IH.
Qed.

(** X9: when the entries that resolve all resolve to different
    identifiers, the dictionary is the list of their identifiers with
    their own timestamps, in list order, and the filter is the
    [#!/bin/sh] line followed by one block per resolved entry, in list
    order, each with the entry's own timestamp. *)
Theorem X9_filter_without_shared_ids :
  forall E cs,
    NoDup (resolved_ids E cs) ->
    mapping_of cs E = resolved_items E cs /\
    written filter_name (trace (program cs E)) =
      shebang :: flat_map (fun it => block (fst it) (snd it)) (resolved_items E cs).
Proof.
  intros E cs H.
  assert (Hm : mapping_of cs E = resolved_items E cs).
  { rewrite mapping_of_after. now apply (mapping_after_distinct E cs Py.empty). }
  split; [exact Hm|]. now rewrite written_program, Hm.
Qed.

(** X9 at [env_all_resolve], for the commit list of the script. *)
Lemma X9_filter_without_shared_ids_witness :
  mapping_of commits env_all_resolve = resolved_items env_all_resolve commits /\
  written filter_name (trace (program commits env_all_resolve)) =
    shebang :: flat_map (fun it => block (fst it) (snd it))
                 (resolved_items env_all_resolve commits).
Proof.
  apply (X9_filter_without_shared_ids env_all_resolve commits).
  vm_compute.
  repeat (constructor;
          [intros H; repeat (destruct H as [H|H]; [discriminate H|]); exact H|]).
  constructor.
Defined.

Example all_resolve_mapping :
  length (mapping_of commits env_all_resolve) = 11 /\
  Py.getitem (mapping_of commits env_all_resolve)
    "afadbad000000000000000000000000000000000" = Some "2025-11-19T10:00:00" /\
  outcome (main env_all_resolve) = inl tt.
Proof. repeat split. Qed.
